(** * OpenAI gateway: session acquisition, completion and routing

    A shallow embedding of [src/index.ts] (the two-stage gateway), of its
    session-only sibling, and of the compiled [index.js], which is the
    two-stage gateway again.  Values are JavaScript values, asynchronous
    functions are computations in a small monad that threads the trace of
    observable effects and may complete abruptly (a rejected promise). *)

From Stdlib Require Import ZArith Lia String Ascii List.
From stdpp Require Import base option list gmap strings.
From Equations Require Import Equations.

Local Open Scope string_scope.
Local Open Scope list_scope.
Local Open Scope Z_scope.

(** ** JavaScript values

    [data?: any], [dx: any], [req.body] and every upstream body are untyped
    at run time.  Numbers are restricted to integers (the program only
    handles status codes).  An array carries its own properties next to its
    elements, since [apiResponse.statusCode = ...] may hit an array. *)

#[local] Set Warnings "-register-all".

Inductive JsVal : Type :=
  | JUndefined
  | JNull
  | JBool (b : bool)
  | JNum (n : Z)
  | JStr (s : string)
  | JArr (elems : list JsVal) (props : gmap string JsVal)
  | JObj (fields : gmap string JsVal).

(** [response.status] and [response.data] of an axios response. *)
Record AxiosResponse : Type := mkResponse {
  response_status : Z;
  response_data : JsVal
}.

(** What is thrown, or what a promise is rejected with.  An [AxiosError]
    carries [error.response] when the upstream answered at all; [ErrNull]
    is the [null] of [handleErrorResponse(null)]. *)
Inductive JsError : Type :=
  | ErrNull
  | TypeError
  | AxiosError (response : option AxiosResponse).

(** [!v] is [negb (truthy v)]. *)
Definition truthy (v : JsVal) : bool :=
  match v with
  | JUndefined | JNull => false
  | JBool b => b
  | JNum n => negb (n =? 0)
  | JStr s => match s with EmptyString => false | String _ _ => true end
  | JArr _ _ | JObj _ => true
  end.

(** [v.k] for the property names of this program ([status], [statusCode],
    [error], [data], [message]): none of them lives on a prototype, so a
    primitive answers [undefined]; [null] and [undefined] throw. *)
Definition get_prop (v : JsVal) (k : string) : JsError + JsVal :=
  match v with
  | JUndefined | JNull => inl TypeError
  | JObj m | JArr _ m => inr (default JUndefined (m !! k))
  | JBool _ | JNum _ | JStr _ => inr JUndefined
  end.

(** [v.k = x] in strict mode (the sources are ES modules): it throws on
    [null], [undefined] and on every primitive. *)
Definition set_prop (v : JsVal) (k : string) (x : JsVal) : JsError + JsVal :=
  match v with
  | JObj m => inr (JObj (<[k := x]> m))
  | JArr l m => inr (JArr l (<[k := x]> m))
  | _ => inl TypeError
  end.

(** An object literal. *)
Definition obj (l : list (string * JsVal)) : JsVal :=
  JObj (list_to_map l).

(** ** Effects

    What a run does to the outside world, in order: outbound calls, timer
    waits and [console.error] lines. *)

Inductive Event : Type :=
  | EvGet (url : string)
  | EvPost (url : string) (body : JsVal)
  | EvWait (ms : Z)
  | EvLog (statusCode : Z) (responseBody : JsVal).

Definition Trace : Type := list Event.

Inductive Completion (A : Type) : Type :=
  | Normal (a : A)
  | Throw (e : JsError).
Arguments Normal {A} a.
Arguments Throw {A} e.

Definition M (A : Type) : Type := Trace -> Completion A * Trace.

Definition ret {A} (a : A) : M A := fun t => (Normal a, t).
Definition throw {A} (e : JsError) : M A := fun t => (Throw e, t).
Definition emit (e : Event) : M unit := fun t => (Normal tt, t ++ [e]).

Definition bind {A B} (c : M A) (k : A -> M B) : M B :=
  fun t => match c t with
           | (Normal a, t') => k a t'
           | (Throw e, t') => (Throw e, t')
           end.

Definition try_catch {A} (body : M A) (handler : JsError -> M A) : M A :=
  fun t => match body t with
           | (Normal a, t') => (Normal a, t')
           | (Throw e, t') => handler e t'
           end.

Definition lift {A} (r : JsError + A) : M A :=
  match r with
  | inl e => throw e
  | inr a => ret a
  end.

Declare Scope js_scope.
Delimit Scope js_scope with js.
Notation "x <- c ;; k" := (bind c (fun x => k))
  (at level 100, c at next level, right associativity) : js_scope.
Notation "c ;;; k" := (bind c (fun _ => k))
  (at level 100, right associativity) : js_scope.
Local Open Scope js_scope.

(** ** The upstream services and axios *)

Inductive Upstream : Type :=
  | NetworkFailure
  | Reply (status : Z) (body : JsVal).

(** The process environment and the two upstream services.  The n-th call
    to the session endpoint gets the n-th answer; the completion endpoint
    answers by the body it is sent. *)
Record Env : Type := mkEnv {
  PORT : option string;
  SESSION_SERVICE_HOST : option string;
  CHAT_COMPLETION_SERVICE_HOST : option string;
  session_endpoint : nat -> Upstream;
  completion_endpoint : JsVal -> Upstream
}.

(** [`${process.env.X}`] *)
Definition template (x : option string) : string := default "undefined" x.

Definition port (env : Env) : string := default "8000" (PORT env).

(** [axios.create()] keeps the default [validateStatus]: the promise is
    fulfilled for a status in [200, 300) and rejected otherwise with an
    [AxiosError] that carries the response; when no response came at all
    the error has no [response]. *)
Definition validateStatus (status : Z) : bool :=
  (200 <=? status) && (status <? 300).

Definition axios_settle (u : Upstream) : M AxiosResponse :=
  match u with
  | NetworkFailure => throw (AxiosError None)
  | Reply status body =>
      if validateStatus status
      then ret (mkResponse status body)
      else throw (AxiosError (Some (mkResponse status body)))
  end.

Definition is_get (e : Event) : bool :=
  match e with EvGet _ => true | _ => false end.
Definition is_post (e : Event) : bool :=
  match e with EvPost _ _ => true | _ => false end.
Definition is_wait (e : Event) : bool :=
  match e with EvWait _ => true | _ => false end.

Definition count_events (p : Event -> bool) (t : Trace) : nat :=
  length (List.filter p t).

Definition axios_get (env : Env) (url : string) : M AxiosResponse :=
  fun t =>
    (emit (EvGet url) ;;;
     axios_settle (session_endpoint env (count_events is_get t))) t.

Definition axios_post (env : Env) (url : string) (body : JsVal)
  : M AxiosResponse :=
  emit (EvPost url body) ;;; axios_settle (completion_endpoint env body).

Definition wait (ms : Z) : M unit := emit (EvWait ms).

(** ** What both gateways share *)

Definition newSessionRetries : nat := 100.

Definition handleErrorResponse (error : JsError) : M JsVal :=
  match error with
  | AxiosError (Some response) =>
      let statusCode := response_status response in
      let responseBody := response_data response in
      emit (EvLog statusCode responseBody) ;;;
      message <- lift (get_prop responseBody "message") ;;
      ret (obj [("status", JBool false);
                ("statusCode", JNum statusCode);
                ("error", message)])
  | _ =>
      ret (obj [("status", JBool false);
                ("statusCode", JNum 500);
                ("error", JStr "Internal server error")])
  end.

(** [let apiResponse = response.data as ApiResponse;
     apiResponse.statusCode = response.status; return apiResponse;] *)
Definition as_ApiResponse (response : AxiosResponse) : M JsVal :=
  lift (set_prop (response_data response) "statusCode"
          (JNum (response_status response))).

(** [if (!errorResponse.error) errorResponse.error = dflt;
     return errorResponse;] *)
Definition or_default_error (errorResponse : JsVal) (dflt : string)
  : M JsVal :=
  e <- lift (get_prop errorResponse "error") ;;
  if negb (truthy e)
  then lift (set_prop errorResponse "error" (JStr dflt))
  else ret errorResponse.

(** *** Express requests and responses

    A request as the middlewares after [bodyParser.json()] see it, with
    its parsed body. *)
Record Request : Type := mkRequest {
  req_method : string;
  req_path : string;
  req_body : JsVal
}.

(** What was written to the response: a text, or the value handed to
    [res.json] as it is before serialisation (which leaves out the
    properties whose value is [undefined]). *)
Inductive Chunk : Type :=
  | Text (s : string)
  | Json (v : JsVal).

Record Res : Type := mkRes {
  res_statusCode : JsVal;
  res_headers : gmap string string;
  res_written : list Chunk;
  res_ended : bool
}.

Definition fresh_res : Res := mkRes (JNum 200) ∅ [] false.

Definition res_header (k v : string) (res : Res) : Res :=
  mkRes (res_statusCode res) (<[k := v]> (res_headers res))
        (res_written res) (res_ended res).
Definition res_status (code : JsVal) (res : Res) : Res :=
  mkRes code (res_headers res) (res_written res) (res_ended res).
Definition res_write (s : string) (res : Res) : Res :=
  mkRes (res_statusCode res) (res_headers res)
        (res_written res ++ [Text s]) (res_ended res).
Definition res_end (res : Res) : Res :=
  mkRes (res_statusCode res) (res_headers res) (res_written res) true.
Definition res_json (v : JsVal) (res : Res) : Res :=
  mkRes (res_statusCode res)
        (<["Content-Type" := "application/json; charset=utf-8"]>
           (res_headers res))
        (res_written res ++ [Json v]) true.
(** [res.send] of an object is [res.json]. *)
Definition res_send (v : JsVal) (res : Res) : Res := res_json v res.

Definition enableCORS (req : Request) (res : Res) (next : Res -> M Res)
  : M Res :=
  let res := res_header "Access-Control-Allow-Origin" "*" res in
  let res := res_header "Access-Control-Allow-Headers" "*" res in
  let res := res_header "Access-Control-Allow-Methods" "GET, POST, OPTIONS" res in
  if String.eqb (req_method req) "OPTIONS"
  then ret (res_end (res_status (JNum 200) res))
  else next res.

Definition handleDefault (_ : Request) (res : Res) : M Res :=
  let res :=
    res_write "Welcome OpenAI Gateway API - The service running correctly" res in
  ret (res_end res).

Definition upper_ascii (c : ascii) : ascii :=
  let n := nat_of_ascii c in
  if ((97 <=? n) && (n <=? 122))%nat then ascii_of_nat (n - 32) else c.

Fixpoint toLocaleUpperCase (s : string) : string :=
  match s with
  | EmptyString => EmptyString
  | String c s' => String (upper_ascii c) (toLocaleUpperCase s')
  end.

Definition dquote : string := String (ascii_of_nat 34) EmptyString.

(** The last [app.use]. *)
Definition notFound (env : Env) (req : Request) (res : Res) : M Res :=
  ret (res_send
         (obj [("status", JBool false);
               ("error",
                obj [("message",
                      JStr ("The requested endpoint ("
                            +:+ toLocaleUpperCase (req_method req) +:+ " "
                            +:+ req_path req
                            +:+ ") was not found. please make sure to use "
                            +:+ dquote +:+ "http://localhost:" +:+ port env
                            +:+ "/v1" +:+ dquote +:+ " as the base URL."));
                     ("type", JStr "invalid_request_error")])])
         (res_status (JNum 404) res)).

(** Which requests a route registered with [app.get] or [app.post] takes
    is Express's business: [accepts verb pattern req]. *)
Definition Matcher : Type := string -> string -> Request -> bool.

(** Express's default matcher: routing is case-insensitive and not strict
    (one trailing slash is optional), and a route registered with
    [app.get] also serves HEAD. *)
Definition lower_ascii (c : ascii) : ascii :=
  let n := nat_of_ascii c in
  if ((65 <=? n) && (n <=? 90))%nat then ascii_of_nat (n + 32) else c.

Fixpoint toLowerCase (s : string) : string :=
  match s with
  | EmptyString => EmptyString
  | String c s' => String (lower_ascii c) (toLowerCase s')
  end.

Fixpoint drop_trailing_slash (s : string) : string :=
  match s with
  | EmptyString => EmptyString
  | String c EmptyString => if Ascii.eqb c "/" then EmptyString else s
  | String c s' => String c (drop_trailing_slash s')
  end.

Definition express_accepts : Matcher := fun verb pattern req =>
  let method := toLowerCase (req_method req) in
  let path := toLowerCase (req_path req) in
  let base := drop_trailing_slash (toLowerCase pattern) in
  (String.eqb method verb
   || (String.eqb method "head" && String.eqb verb "get"))
  && (String.eqb path base || String.eqb path (base +:+ "/")).

(** *** The body parser

    A request as it comes in, with what [bodyParser.json()] makes of its
    body: the parsed value that becomes [req.body], or an error with its
    status (400 for a body that is not JSON, 413 for one that is too
    large, ...). *)
Inductive BodyOutcome : Type :=
  | Parsed (body : JsVal)
  | Refused (status : Z) (page : string).

Record Incoming : Type := mkIncoming {
  in_method : string;
  in_path : string;
  in_body : BodyOutcome
}.

(** Express's default error handler, where the error of the body parser
    ends up since the gateway installs no error handler of its own: it
    answers with the status of the error and a page of its own. *)
Definition error_handler_answer (status : Z) (page : string) (res : Res)
  : Res :=
  let res := res_status (JNum status) res in
  let res := res_header "Content-Security-Policy" "default-src 'none'" res in
  let res := res_header "X-Content-Type-Options" "nosniff" res in
  let res := res_header "Content-Type" "text/html; charset=utf-8" res in
  res_end (res_write page res).

(** [app.use(bodyParser.json())], the first middleware: whatever the
    method and the path, a refused body stops the request here. *)
Definition bodyParser_json (inc : Incoming) (res : Res)
  (next : Request -> Res -> M Res) : M Res :=
  match in_body inc with
  | Parsed body => next (mkRequest (in_method inc) (in_path inc) body) res
  | Refused status page => ret (error_handler_answer status page res)
  end.

(** ** The two-stage gateway ([index.ts], [index.js]) *)

Module TwoStage.

Definition sessionUrl (env : Env) : string :=
  template (SESSION_SERVICE_HOST env) +:+ "/v1/new-openai-session".
Definition completionUrl (env : Env) : string :=
  template (CHAT_COMPLETION_SERVICE_HOST env) +:+ "/v1/generate-conversation".

Equations? getNewSession (env : Env) (retries : nat) : M JsVal
  by wf (newSessionRetries - retries)%nat lt :=
getNewSession env retries :=
  try_catch
    (response <- axios_get env (sessionUrl env) ;;
     as_ApiResponse response)
    (fun error =>
       wait 1 ;;;
       match lt_dec retries newSessionRetries with
       | left _ => getNewSession env (retries + 1)
       | right _ =>
           errorResponse <- handleErrorResponse error ;;
           or_default_error errorResponse "Error while getting session..."
       end).
Proof. lia. Qed.

Record CompletionRequest : Type := mkCompletionRequest {
  session : JsVal;
  conversation : JsVal
}.

(** The object that [completionRequest] is at run time. *)
Definition CompletionRequest_js (c : CompletionRequest) : JsVal :=
  obj [("session", session c); ("conversation", conversation c)].

Definition getCompletionWithOpenAi (env : Env)
  (completionRequest : CompletionRequest) : M JsVal :=
  if negb (truthy (session completionRequest))
  then handleErrorResponse ErrNull
  else
    try_catch
      (response <- axios_post env (completionUrl env)
                     (CompletionRequest_js completionRequest) ;;
       as_ApiResponse response)
      (fun error =>
         errorResponse <- handleErrorResponse error ;;
         or_default_error errorResponse "Error while getting completions...").

Definition handleConversation (env : Env) (req : Request) (res : Res)
  : M Res :=
  sessionResponse <- getNewSession env 0 ;;
  status <- lift (get_prop sessionResponse "status") ;;
  if negb (truthy status)
  then
    statusCode <- lift (get_prop sessionResponse "statusCode") ;;
    ret (res_json sessionResponse (res_status statusCode res))
  else
    session <- lift (get_prop sessionResponse "data") ;;
    let conversationRequest := req_body req in
    let completionRequest :=
      mkCompletionRequest session conversationRequest in
    completionResponse <- getCompletionWithOpenAi env completionRequest ;;
    statusCode <- lift (get_prop completionResponse "statusCode") ;;
    ret (res_json completionResponse (res_status statusCode res)).

Definition app (env : Env) (inc : Incoming) : M Res :=
  bodyParser_json inc fresh_res (fun req res =>
    enableCORS req res (fun res =>
      if express_accepts "get" "/" req then handleDefault req res
      else if express_accepts "post" "/v1/chat/completions" req
           then handleConversation env req res
           else notFound env req res)).

End TwoStage.

(** ** The session-only gateway (the second [index.ts]) *)

Module SessionOnly.

Definition sessionUrl (env : Env) : string :=
  template (SESSION_SERVICE_HOST env) +:+ "/v1/new-openai-session".
Definition completionUrl (env : Env) : string :=
  template (CHAT_COMPLETION_SERVICE_HOST env) +:+ "/v1/chat-completion".

Equations? getNewSession (env : Env) (retries : nat) : M JsVal
  by wf (newSessionRetries - retries)%nat lt :=
getNewSession env retries :=
  try_catch
    (response <- axios_get env (sessionUrl env) ;;
     as_ApiResponse response)
    (fun error =>
       wait 1 ;;;
       match lt_dec retries newSessionRetries with
       | left _ => getNewSession env (retries + 1)
       | right _ => handleErrorResponse error
       end).
Proof. lia. Qed.

Definition getCompletionWithOpenAi (env : Env) (session : JsVal) : M JsVal :=
  if negb (truthy session)
  then handleErrorResponse ErrNull
  else
    try_catch
      (response <- axios_post env (completionUrl env) session ;;
       as_ApiResponse response)
      (fun error => handleErrorResponse error).

Definition handleChatCompletion (env : Env) (_ : Request) (res : Res)
  : M Res :=
  sessionResponse <- getNewSession env 0 ;;
  status <- lift (get_prop sessionResponse "status") ;;
  if negb (truthy status)
  then
    statusCode <- lift (get_prop sessionResponse "statusCode") ;;
    ret (res_json sessionResponse (res_status statusCode res))
  else
    session <- lift (get_prop sessionResponse "data") ;;
    completionResponse <- getCompletionWithOpenAi env session ;;
    statusCode <- lift (get_prop completionResponse "statusCode") ;;
    ret (res_json completionResponse (res_status statusCode res)).

Definition app (env : Env) (inc : Incoming) : M Res :=
  bodyParser_json inc fresh_res (fun req res =>
    enableCORS req res (fun res =>
      if express_accepts "get" "/" req then handleDefault req res
      else if express_accepts "post" "/v1/chat/completions" req
           then handleChatCompletion env req res
           else notFound env req res)).

End SessionOnly.

(** ** Specification vocabulary *)

(** [v.k], with [undefined] where the access would throw. *)
Definition field (v : JsVal) (k : string) : JsVal :=
  match get_prop v k with
  | inr x => x
  | inl _ => JUndefined
  end.

(** Objects and arrays: the values that take a property. *)
Definition object_like (v : JsVal) : bool :=
  match v with
  | JObj _ | JArr _ _ => true
  | _ => false
  end.

(** *** Attempts

    What one pass through a [try] block (the axios call, then
    [apiResponse.statusCode = response.status]) comes to, given the answer
    of the upstream. *)
Definition try_outcome (u : Upstream) : JsError + JsVal :=
  match u with
  | NetworkFailure => inl (AxiosError None)
  | Reply status body =>
      if validateStatus status
      then set_prop body "statusCode" (JNum status)
      else inl (AxiosError (Some (mkResponse status body)))
  end.

Definition attempt_throws (u : Upstream) : bool :=
  match try_outcome u with inl _ => true | inr _ => false end.

(** [n] failed attempts, each followed by the delay. *)
Fixpoint retry_trace (url : string) (n : nat) : Trace :=
  match n with
  | O => []
  | S n' => EvGet url :: EvWait 1 :: retry_trace url n'
  end.

(** The [console.error] lines of [handleErrorResponse]. *)
Definition error_log (error : JsError) : Trace :=
  match error with
  | AxiosError (Some response) =>
      [EvLog (response_status response) (response_data response)]
  | _ => []
  end.

(** The [else] branch of the [catch] block of [getNewSession], and the
    [catch] block of [getCompletionWithOpenAi], in the two-stage gateway. *)
Definition give_up_session (error : JsError) : M JsVal :=
  errorResponse <- handleErrorResponse error ;;
  or_default_error errorResponse "Error while getting session...".

Definition give_up_completion (error : JsError) : M JsVal :=
  errorResponse <- handleErrorResponse error ;;
  or_default_error errorResponse "Error while getting completions...".

(** *** Results

    The two object literals of [handleErrorResponse]. *)
Definition error_result (statusCode : Z) (error : JsVal) : JsVal :=
  obj [("status", JBool false);
       ("statusCode", JNum statusCode);
       ("error", error)].

Definition generic_error : JsVal :=
  obj [("status", JBool false);
       ("statusCode", JNum 500);
       ("error", JStr "Internal server error")].

(** A result built by error normalisation. *)
Definition error_shaped (r : JsVal) : Prop :=
  object_like r = true
  ∧ field r "status" = JBool false
  ∧ field r "data" = JUndefined
  ∧ ∃ n, field r "statusCode" = JNum n.

(** The invariant that the specification puts on a uniform result: the
    flag is true if and only if there is no error and there is data. *)
Definition uniform_invariant (r : JsVal) : Prop :=
  field r "status" = JBool true
  ↔ (field r "error" = JUndefined ∧ field r "data" ≠ JUndefined).

(** [res.status(r.statusCode).json(r)] *)
Definition relay (r : JsVal) (res : Res) : Res :=
  res_json r (res_status (field r "statusCode") res).

(** *** Routing *)

(** The response once [enableCORS] has set its three headers. *)
Definition cors_res : Res :=
  res_header "Access-Control-Allow-Methods" "GET, POST, OPTIONS"
    (res_header "Access-Control-Allow-Headers" "*"
       (res_header "Access-Control-Allow-Origin" "*" fresh_res)).

(** The body of the 404 answer and its message. *)
Definition not_found_json (message : string) : JsVal :=
  obj [("status", JBool false);
       ("error", obj [("message", JStr message);
                      ("type", JStr "invalid_request_error")])].

Definition not_found_message (env : Env) (req : Request) : string :=
  "The requested endpoint ("
  +:+ toLocaleUpperCase (req_method req) +:+ " " +:+ req_path req
  +:+ ") was not found. please make sure to use "
  +:+ dquote +:+ "http://localhost:" +:+ port env
  +:+ "/v1" +:+ dquote +:+ " as the base URL.".

(** *** Sample environments and requests *)

Definition echo (body : JsVal) : Upstream := Reply 200 body.

Definition sample_session : JsVal :=
  obj [("statusCode", JNum 200);
       ("status", JBool true);
       ("data", obj [("token", JStr "t0")])].

Definition upstream_404_body : JsVal := obj [("message", JStr "not found")].

(** A session endpoint that never answers. *)
Definition env_unreachable : Env :=
  mkEnv None None None (fun _ => NetworkFailure) echo.

(** A session endpoint that answers from the [n]-th call on. *)
Definition env_reachable_after (n : nat) : Env :=
  mkEnv None None None
    (fun i => if (i <? n)%nat then NetworkFailure else Reply 200 sample_session)
    echo.

(** A session endpoint that reports success without any session. *)
Definition env_no_data : Env :=
  mkEnv None None None (fun _ => Reply 200 (obj [("status", JBool true)])) echo.

(** A session endpoint that answers 404 once and then succeeds, and one
    that answers 404 for ever. *)
Definition env_404_then_ok : Env :=
  mkEnv None None None
    (fun i => if (i =? 0)%nat then Reply 404 upstream_404_body
              else Reply 200 sample_session)
    echo.

Definition env_404 : Env :=
  mkEnv None None None (fun _ => Reply 404 upstream_404_body) echo.

(** A completion endpoint that answers 500 with an empty object. *)
Definition env_completion_fails : Env :=
  mkEnv None None None (fun _ => Reply 200 sample_session)
    (fun _ => Reply 500 (obj [])).

Definition sample_request : Request :=
  mkRequest "POST" "/v1/chat/completions"
    (obj [("model", JStr "m");
          ("messages",
           JArr [obj [("role", JStr "user"); ("content", JStr "hi")]] ∅)]).

(** *** Runs and their results *)

(** The errors that a [try] block can hand to its [catch] block. *)
Definition thrown_by_attempt (e : JsError) : Prop :=
  match e with
  | ErrNull => False
  | TypeError => True
  | AxiosError None => True
  | AxiosError (Some response) =>
      validateStatus (response_status response) = false
  end.

(** A normalised error of a run: its status code is never a 2xx one. *)
Definition normalised_error (r : JsVal) : Prop :=
  error_shaped r
  ∧ ∃ n, field r "statusCode" = JNum n ∧ validateStatus n = false.

(** The body of a fulfilled answer, with the status of that answer put in. *)
Definition passed_through (u : Upstream) (r : JsVal) : Prop :=
  ∃ status body,
    u = Reply status body
    ∧ validateStatus status = true
    ∧ set_prop body "statusCode" (JNum status) = inr r.


(** What one call of [getCompletionWithOpenAi] with a truthy session does
    to the outside world. *)
Definition completion_events (url : string) (body : JsVal) (u : Upstream)
  : Trace :=
  EvPost url body ::
  match try_outcome u with
  | inl e => error_log e
  | inr _ => []
  end.

(** More sample environments: a session endpoint behind a proxy that
    answers 200 with an HTML page, one that answers 502 with the JSON
    [null], and completion endpoints that answer 429 with a message, that
    cannot be reached, and that answer 200 with a text. *)
Definition env_html : Env :=
  mkEnv None None None (fun _ => Reply 200 (JStr "<html></html>")) echo.

Definition env_502_null : Env :=
  mkEnv None None None (fun _ => Reply 502 JNull) echo.

Definition env_502_empty : Env :=
  mkEnv None None None (fun _ => Reply 502 (obj [])) echo.

Definition env_completion_429 : Env :=
  mkEnv None None None (fun _ => Reply 200 sample_session)
    (fun _ => Reply 429 (obj [("message", JStr "slow down")])).

Definition env_completion_down : Env :=
  mkEnv None None None (fun _ => Reply 200 sample_session)
    (fun _ => NetworkFailure).

Definition env_completion_text : Env :=
  mkEnv None None None (fun _ => Reply 200 sample_session)
    (fun _ => Reply 200 (JStr "ok")).

(** The status code that [handleErrorResponse] gives to an error. *)
Definition error_status (e : JsError) : Z :=
  match e with
  | AxiosError (Some response) => response_status response
  | _ => 500
  end.

(** A result of a stage, sorted by its status code: with a 2xx code it is
    an upstream body passed through (from one of the answers that [P]
    allows), with any other code it is a normalised error. *)
Definition stage_result (P : Upstream → Prop) (r : JsVal) : Prop :=
  ∃ n, field r "statusCode" = JNum n
       ∧ ((validateStatus n = true ∧ ∃ u, P u ∧ passed_through u r)
          ∨ (validateStatus n = false ∧ error_shaped r)).

(** The three headers of [enableCORS]. *)
Definition has_cors_headers (res : Res) : Prop :=
  res_headers res !! "Access-Control-Allow-Origin" = Some "*"
  ∧ res_headers res !! "Access-Control-Allow-Headers" = Some "*"
  ∧ res_headers res !! "Access-Control-Allow-Methods"
    = Some "GET, POST, OPTIONS".

(** The request that the body parser hands on. *)
Definition request_of (inc : Incoming) (body : JsVal) : Request :=
  mkRequest (in_method inc) (in_path inc) body.

(** The two routes in plain terms: [GET /] takes the methods GET and HEAD
    on the path [/]; [POST /v1/chat/completions] takes the method POST on
    that path, with or without a slash at its end; letters compare without
    regard to case. *)
Definition welcome_route (req : Request) : bool :=
  let method := toLowerCase (req_method req) in
  let path := toLowerCase (req_path req) in
  (String.eqb method "get" || String.eqb method "head")
  && (String.eqb path EmptyString || String.eqb path "/").

Definition chat_route (req : Request) : bool :=
  let method := toLowerCase (req_method req) in
  let path := toLowerCase (req_path req) in
  String.eqb method "post"
  && (String.eqb path "/v1/chat/completions"
      || String.eqb path "/v1/chat/completions/").

(** Whether a request gets as far as the handler of
    [POST /v1/chat/completions]. *)
Definition reaches_handler (inc : Incoming) : bool :=
  match in_body inc with
  | Refused _ _ => false
  | Parsed body =>
      negb (String.eqb (in_method inc) "OPTIONS")
      && negb (welcome_route (request_of inc body))
      && chat_route (request_of inc body)
  end.


(** Incoming requests: a chat request, and requests of a path that no
    route knows. *)
Definition sample_incoming : Incoming :=
  mkIncoming "POST" "/v1/chat/completions" (Parsed (req_body sample_request)).

Definition unknown_path (method : string) (body : BodyOutcome) : Incoming :=
  mkIncoming method "/unknown-path" body.

(** ** Traces *)

(** The test [retries < newSessionRetries] of the goal, settled from the
    arithmetic at hand. *)
Ltac retries_left :=
  match goal with
  | |- context [(?r <? newSessionRetries)%nat] =>
      replace (r <? newSessionRetries)%nat with true
        by (symmetry; apply Nat.ltb_lt; lia)
  end.

Ltac retries_used_up :=
  match goal with
  | |- context [(?r <? newSessionRetries)%nat] =>
      replace (r <? newSessionRetries)%nat with false
        by (symmetry; apply Nat.ltb_ge; lia)
  end.

Lemma count_events_app p (t1 t2 : Trace) :
  count_events p (t1 ++ t2) = (count_events p t1 + count_events p t2)%nat.
Proof.
  unfold count_events. rewrite List.filter_app, List.length_app. reflexivity.
Qed.

Lemma count_get_retry_trace url n :
  count_events is_get (retry_trace url n) = n.
Proof.
  induction n as [|n IH]; [reflexivity|].
  change (retry_trace url (S n))
    with ([EvGet url; EvWait 1] ++ retry_trace url n).
  rewrite count_events_app, IH. reflexivity.
Qed.

Lemma count_wait_retry_trace url n :
  count_events is_wait (retry_trace url n) = n.
Proof.
  induction n as [|n IH]; [reflexivity|].
  change (retry_trace url (S n))
    with ([EvGet url; EvWait 1] ++ retry_trace url n).
  rewrite count_events_app, IH. reflexivity.
Qed.

Lemma retry_trace_snoc url n :
  retry_trace url (S n) = retry_trace url n ++ [EvGet url; EvWait 1].
Proof.
  induction n as [|n IH]; [reflexivity|].
  simpl in *. rewrite <- IH. reflexivity.
Qed.

(** ** One attempt of [getNewSession] *)

Lemma session_try_run env url t :
  (response <- axios_get env url ;; as_ApiResponse response) t =
  (match try_outcome (session_endpoint env (count_events is_get t)) with
   | inr v => Normal v
   | inl e => Throw e
   end, t ++ [EvGet url]).
Proof.
  unfold bind, axios_get, bind, emit, try_outcome, axios_settle,
    as_ApiResponse. simpl.
  destruct (session_endpoint env (count_events is_get t)) as [|status body];
    simpl; [reflexivity|].
  destruct (validateStatus status); simpl; [|reflexivity].
  destruct (set_prop body "statusCode" (JNum status)); reflexivity.
Qed.

Lemma getNewSession_step env retries t :
  TwoStage.getNewSession env retries t =
  match try_outcome (session_endpoint env (count_events is_get t)) with
  | inr v => (Normal v, t ++ [EvGet (TwoStage.sessionUrl env)])
  | inl e =>
      if (retries <? newSessionRetries)%nat
      then TwoStage.getNewSession env (retries + 1)
             (t ++ [EvGet (TwoStage.sessionUrl env); EvWait 1])
      else give_up_session e
             (t ++ [EvGet (TwoStage.sessionUrl env); EvWait 1])
  end.
Proof.
  rewrite TwoStage.getNewSession_equation_1.
  unfold try_catch at 1. rewrite session_try_run.
  destruct (try_outcome _) as [e|v]; [|reflexivity].
  unfold bind at 1, wait, emit. rewrite <- List.app_assoc. simpl.
  destruct (lt_dec retries newSessionRetries) as [Hlt|Hge].
  - apply Nat.ltb_lt in Hlt. rewrite Hlt. reflexivity.
  - apply Nat.ltb_nlt in Hge. rewrite Hge. reflexivity.
Qed.

(** [k] failing attempts in a row, while retries remain, are [k] turns of
    the loop. *)
Lemma getNewSession_skip env k : ∀ retries t,
  (retries + k ≤ newSessionRetries)%nat →
  (∀ i, (i < k)%nat →
     attempt_throws (session_endpoint env (count_events is_get t + i)) = true) →
  TwoStage.getNewSession env retries t =
  TwoStage.getNewSession env (retries + k)
    (t ++ retry_trace (TwoStage.sessionUrl env) k).
Proof.
  induction k as [|k IH]; intros retries t Hle Hfail.
  - simpl. rewrite Nat.add_0_r, List.app_nil_r. reflexivity.
  - rewrite getNewSession_step.
    pose proof (Hfail 0%nat ltac:(lia)) as H0.
    rewrite Nat.add_0_r in H0. unfold attempt_throws in H0.
    destruct (try_outcome _) as [e|v]; [|discriminate].
    retries_left.
    rewrite IH.
    + replace (retries + 1 + k)%nat with (retries + S k)%nat by lia.
      rewrite <- List.app_assoc. reflexivity.
    + lia.
    + intros i Hi. rewrite count_events_app.
      change (count_events is_get [EvGet (TwoStage.sessionUrl env); EvWait 1])
        with 1%nat.
      replace (count_events is_get t + 1 + i)%nat
        with (count_events is_get t + S i)%nat by lia.
      apply Hfail. lia.
Qed.

(** ** Error normalisation *)

Lemma count_error_log p error :
  (∀ s b, p (EvLog s b) = false) → count_events p (error_log error) = 0%nat.
Proof.
  intros Hp. destruct error as [| |[response|]]; try reflexivity.
  unfold error_log, count_events. simpl. rewrite Hp. reflexivity.
Qed.

Lemma handleErrorResponse_trace error t :
  snd (handleErrorResponse error t) = t ++ error_log error.
Proof.
  destruct error as [| |[response|]]; simpl;
    try (unfold ret; simpl; rewrite List.app_nil_r; reflexivity).
  unfold bind, emit, lift. simpl.
  destruct (get_prop (response_data response) "message"); reflexivity.
Qed.

Lemma or_default_error_trace v dflt t :
  snd (or_default_error v dflt t) = t.
Proof.
  unfold or_default_error, bind, lift.
  destruct (get_prop v "error") as [e|x]; simpl; [reflexivity|].
  destruct (negb (truthy x)); simpl; [|reflexivity].
  destruct (set_prop v "error" (JStr dflt)); reflexivity.
Qed.

Lemma give_up_trace dflt error t :
  snd ((errorResponse <- handleErrorResponse error ;;
        or_default_error errorResponse dflt) t) = t ++ error_log error.
Proof.
  unfold bind.
  pose proof (handleErrorResponse_trace error t) as H.
  destruct (handleErrorResponse error t) as [[v|e] t']; simpl in *; subst.
  - apply or_default_error_trace.
  - reflexivity.
Qed.

Lemma give_up_session_trace error t :
  snd (give_up_session error t) = t ++ error_log error.
Proof. apply give_up_trace. Qed.

Lemma give_up_session_network t :
  give_up_session (AxiosError None) t = (Normal generic_error, t).
Proof. reflexivity. Qed.

(** ** The retry loop is bounded *)

Lemma getNewSession_bounded env k : ∀ retries t,
  (newSessionRetries - retries = k)%nat →
  ∃ added,
    snd (TwoStage.getNewSession env retries t) = t ++ added
    ∧ (1 ≤ count_events is_get added ≤ S k)%nat
    ∧ (S (count_events is_wait added) ≥ count_events is_get added)%nat
    ∧ count_events is_post added = 0%nat.
Proof.
  set (url := TwoStage.sessionUrl env).
  assert (Hone : ∃ added, [EvGet url] = added
            ∧ count_events is_get added = 1%nat
            ∧ count_events is_wait added = 0%nat
            ∧ count_events is_post added = 0%nat)
    by (eexists; repeat split; reflexivity).
  assert (Hturn : count_events is_get [EvGet url; EvWait 1] = 1%nat
            ∧ count_events is_wait [EvGet url; EvWait 1] = 1%nat
            ∧ count_events is_post [EvGet url; EvWait 1] = 0%nat)
    by (repeat split; reflexivity).
  destruct Hone as (one & Hone & Hg1 & Hw1 & Hp1).
  destruct Hturn as (Hg2 & Hw2 & Hp2).
  induction k as [|k IH]; intros retries t Hk; rewrite getNewSession_step;
    fold url; destruct (try_outcome _) as [e|v].
  - retries_used_up.
    exists ([EvGet url; EvWait 1] ++ error_log e).
    rewrite give_up_session_trace, <- List.app_assoc.
    rewrite !count_events_app, !count_error_log by reflexivity.
    rewrite Hg2, Hw2, Hp2. repeat split; lia.
  - exists one. rewrite Hg1, Hw1, Hp1, <- Hone. repeat split; lia.
  - retries_left.
    destruct (IH (retries + 1)%nat (t ++ [EvGet url; EvWait 1]))
      as (added & Hrun & Hget & Hwait & Hpost); [lia|].
    exists ([EvGet url; EvWait 1] ++ added).
    rewrite Hrun, <- List.app_assoc, !count_events_app.
    rewrite Hg2, Hw2, Hp2. repeat split; lia.
  - exists one. rewrite Hg1, Hw1, Hp1, <- Hone. repeat split; lia.
Qed.

(** ** Session acquisition: how many attempts *)

Lemma count_get_run_retry url n (t : Trace) (tl : Trace) :
  count_events is_get (t ++ retry_trace url n ++ tl) =
  (count_events is_get t + n + count_events is_get tl)%nat.
Proof. rewrite !count_events_app, count_get_retry_trace. lia. Qed.

(** [N] failing attempts, then one that does not throw. *)
Lemma getNewSession_recovers env t N v :
  (N ≤ newSessionRetries)%nat →
  (∀ i, (i < N)%nat →
     attempt_throws (session_endpoint env (count_events is_get t + i)) = true) →
  try_outcome (session_endpoint env (count_events is_get t + N)) = inr v →
  TwoStage.getNewSession env 0 t =
  (Normal v,
   t ++ retry_trace (TwoStage.sessionUrl env) N
     ++ [EvGet (TwoStage.sessionUrl env)]).
Proof.
  intros Hle Hfail Hok.
  rewrite (getNewSession_skip env N) by (eauto; lia).
  rewrite getNewSession_step, count_events_app, count_get_retry_trace, Hok.
  rewrite <- List.app_assoc. reflexivity.
Qed.

(** 101 failing attempts: the last error goes to the [else] branch. *)
Lemma getNewSession_exhausted env t e :
  (∀ i, (i < newSessionRetries)%nat →
     attempt_throws (session_endpoint env (count_events is_get t + i)) = true) →
  try_outcome
    (session_endpoint env (count_events is_get t + newSessionRetries)) = inl e →
  TwoStage.getNewSession env 0 t =
  give_up_session e
    (t ++ retry_trace (TwoStage.sessionUrl env) (S newSessionRetries)).
Proof.
  intros Hfail Hlast.
  rewrite (getNewSession_skip env newSessionRetries) by (eauto; lia).
  rewrite getNewSession_step, count_events_app, count_get_retry_trace, Hlast.
  change ((0 + newSessionRetries <? newSessionRetries)%nat) with false.
  cbv iota. rewrite <- List.app_assoc, <- retry_trace_snoc. reflexivity.
Qed.

Lemma getNewSession_unreachable env t :
  (∀ i, (i ≤ newSessionRetries)%nat →
     session_endpoint env (count_events is_get t + i) = NetworkFailure) →
  TwoStage.getNewSession env 0 t =
  (Normal generic_error,
   t ++ retry_trace (TwoStage.sessionUrl env) (S newSessionRetries)).
Proof.
  intros Hfail.
  rewrite (getNewSession_exhausted env t (AxiosError None)).
  - apply give_up_session_network.
  - intros i Hi. rewrite Hfail by lia. reflexivity.
  - rewrite Hfail by lia. reflexivity.
Qed.

(** C1 (amended): when the first [N] session fetches meet a transport
    failure and the next one, if the loop gets that far, does not throw,
    [getNewSession] makes exactly [min (N + 1) 101] fetches: the first
    attempt and [min N 100] retries.  Every failed attempt is followed by
    [wait(1)], so the delay separates any two consecutive attempts.  It
    gives up with the generic error result exactly when [N >= 101], after
    101 failed attempts. *)
Theorem getNewSession_attempts env t N :
  (∀ i, (i < N)%nat →
     session_endpoint env (count_events is_get t + i) = NetworkFailure) →
  ((N ≤ newSessionRetries)%nat →
     attempt_throws (session_endpoint env (count_events is_get t + N)) = false) →
  let url := TwoStage.sessionUrl env in
  let run := TwoStage.getNewSession env 0 t in
  snd run = t ++ retry_trace url (Nat.min N 101)
              ++ (if (N <=? newSessionRetries)%nat then [EvGet url] else [])
  ∧ count_events is_get (snd run) =
      (count_events is_get t + Nat.min (N + 1) 101)%nat
  ∧ count_events is_get (snd run) =
      (count_events is_get t + 1 + Nat.min N newSessionRetries)%nat
  ∧ count_events is_wait (snd run) =
      (count_events is_wait t + Nat.min N 101)%nat
  ∧ ((N ≤ newSessionRetries)%nat →
       ∃ v, fst run = Normal v
            ∧ try_outcome
                (session_endpoint env (count_events is_get t + N)) = inr v)
  ∧ ((newSessionRetries < N)%nat → fst run = Normal generic_error).
Proof.
  intros Hfail Hok url run.
  destruct (le_lt_dec N newSessionRetries) as [Hle|Hgt].
  - specialize (Hok Hle). unfold attempt_throws in Hok.
    destruct (try_outcome _) as [e|v] eqn:Hv; [discriminate|].
    assert (Hrun : run = (Normal v, t ++ retry_trace url N ++ [EvGet url])).
    { apply getNewSession_recovers; [exact Hle| |exact Hv].
      intros i Hi. rewrite Hfail by lia. reflexivity. }
    assert ((N <=? newSessionRetries)%nat = true) as HleB
      by (apply Nat.leb_le; exact Hle).
    unfold newSessionRetries in *.
    rewrite Hrun, HleB. cbn [fst snd].
    replace (Nat.min N 101) with N by lia.
    split; [reflexivity|].
    assert (Hg : count_events is_get (t ++ retry_trace url N ++ [EvGet url])
                 = (count_events is_get t + N + 1)%nat).
    { rewrite count_get_run_retry. reflexivity. }
    assert (Hw : count_events is_wait (t ++ retry_trace url N ++ [EvGet url])
                 = (count_events is_wait t + N)%nat).
    { rewrite !count_events_app, count_wait_retry_trace.
      change (count_events is_wait [EvGet url]) with 0%nat. lia. }
    rewrite Hg, Hw.
    split; [lia|]. split; [lia|]. split; [lia|].
    split; [|intros; lia].
    intros _. exists v. split; reflexivity.
  - assert (Hrun : run = (Normal generic_error,
                          t ++ retry_trace url (S newSessionRetries))).
    { apply getNewSession_unreachable. intros i Hi. apply Hfail. lia. }
    assert ((N <=? newSessionRetries)%nat = false) as HleB
      by (apply Nat.leb_gt; exact Hgt).
    unfold newSessionRetries in *.
    rewrite Hrun, HleB. cbn [fst snd].
    replace (Nat.min N 101) with 101%nat by lia.
    split; [rewrite List.app_nil_r; reflexivity|].
    rewrite !count_events_app, count_get_retry_trace, count_wait_retry_trace.
    split; [lia|]. split; [lia|]. split; [lia|].
    split; [intros; lia|reflexivity].
Qed.

(** Two transport failures, then a session: three fetches, two waits. *)
Lemma getNewSession_attempts_witness :
  let env := env_reachable_after 2 in
  (∀ i, (i < 2)%nat →
     session_endpoint env (count_events is_get [] + i) = NetworkFailure)
  ∧ ((2 ≤ newSessionRetries)%nat →
     attempt_throws (session_endpoint env (count_events is_get [] + 2)) = false)
  ∧ snd (TwoStage.getNewSession env 0 []) =
      [EvGet "undefined/v1/new-openai-session"; EvWait 1;
       EvGet "undefined/v1/new-openai-session"; EvWait 1;
       EvGet "undefined/v1/new-openai-session"]
  ∧ count_events is_get (snd (TwoStage.getNewSession env 0 [])) = 3%nat.
Proof.
  intros env.
  assert (H1 : ∀ i, (i < 2)%nat →
     session_endpoint env (count_events is_get [] + i) = NetworkFailure).
  { intros [|[|i]] Hi; [reflexivity|reflexivity|lia]. }
  assert (H2 : (2 ≤ newSessionRetries)%nat →
     attempt_throws (session_endpoint env (count_events is_get [] + 2)) = false).
  { intros _. reflexivity. }
  split; [exact H1|]. split; [exact H2|].
  pose proof (getNewSession_attempts env [] 2 H1 H2) as (Ht & Hc & _).
  split; [exact Ht|exact Hc].
Defined.

(** C1 as stated fails: against a session endpoint that never answers the
    loop makes 101 fetches, which is [min N 100] for no [N]. *)
Lemma getNewSession_attempts_not_min_100 :
  (∀ i, session_endpoint env_unreachable i = NetworkFailure)
  ∧ ∀ N, count_events is_get
           (snd (TwoStage.getNewSession env_unreachable 0 []))
         ≠ Nat.min N 100.
Proof.
  split; [reflexivity|]. intros N.
  assert (count_events is_get
            (snd (TwoStage.getNewSession env_unreachable 0 [])) = 101%nat)
    as -> by (vm_compute; reflexivity).
  lia.
Qed.

(** ** The request handlers *)

Lemma getCompletion_guard_two_stage env completionRequest t :
  truthy (TwoStage.session completionRequest) = false →
  TwoStage.getCompletionWithOpenAi env completionRequest t =
  (Normal generic_error, t).
Proof.
  intros Hs. unfold TwoStage.getCompletionWithOpenAi. rewrite Hs. reflexivity.
Qed.

Lemma getCompletion_guard_session_only env session t :
  truthy session = false →
  SessionOnly.getCompletionWithOpenAi env session t =
  (Normal generic_error, t).
Proof.
  intros Hs. unfold SessionOnly.getCompletionWithOpenAi. rewrite Hs.
  reflexivity.
Qed.

(** C4: with an absent or falsy session, [getCompletionWithOpenAi] of
    either gateway returns the generic error result (statusCode 500, status
    false, error "Internal server error") and leaves the trace as it was:
    no outbound call is made. *)
Theorem getCompletion_without_session env t :
  (∀ completionRequest,
     truthy (TwoStage.session completionRequest) = false →
     TwoStage.getCompletionWithOpenAi env completionRequest t =
     (Normal generic_error, t))
  ∧ (∀ session,
     truthy session = false →
     SessionOnly.getCompletionWithOpenAi env session t =
     (Normal generic_error, t))
  ∧ field generic_error "statusCode" = JNum 500
  ∧ field generic_error "status" = JBool false
  ∧ field generic_error "error" = JStr "Internal server error".
Proof.
  split; [|split]; [| |repeat split].
  - intros. now apply getCompletion_guard_two_stage.
  - intros. now apply getCompletion_guard_session_only.
Qed.

(** An [undefined] session, in either gateway. *)
Lemma getCompletion_without_session_witness :
  truthy JUndefined = false
  ∧ TwoStage.getCompletionWithOpenAi env_unreachable
      (TwoStage.mkCompletionRequest JUndefined (obj [])) []
    = (Normal generic_error, [])
  ∧ SessionOnly.getCompletionWithOpenAi env_unreachable JUndefined []
    = (Normal generic_error, []).
Proof.
  split; [reflexivity|]. split.
  - exact (proj1 (getCompletion_without_session env_unreachable [])
             (TwoStage.mkCompletionRequest JUndefined (obj [])) eq_refl).
  - exact (proj1 (proj2 (getCompletion_without_session env_unreachable []))
             JUndefined eq_refl).
Defined.

(** ** Properties of values *)

Lemma get_prop_field v k :
  object_like v = true → get_prop v k = inr (field v k).
Proof. destruct v; simpl; try discriminate; reflexivity. Qed.

Lemma set_prop_object_like v k x r :
  set_prop v k x = inr r → object_like v = true ∧ object_like r = true.
Proof.
  destruct v; simpl; try discriminate; intros [= <-]; split; reflexivity.
Qed.

Lemma field_set_prop_eq v k x r :
  set_prop v k x = inr r → field r k = x.
Proof.
  destruct v; simpl; try discriminate; intros [= <-];
    unfold field; simpl; rewrite lookup_insert_eq; reflexivity.
Qed.

Lemma field_set_prop_ne v k x r k' :
  set_prop v k x = inr r → k ≠ k' → field r k' = field v k'.
Proof.
  destruct v; simpl; try discriminate; intros [= <-] Hne;
    unfold field; simpl; rewrite lookup_insert_ne by exact Hne; reflexivity.
Qed.

Lemma try_outcome_object_like u r :
  try_outcome u = inr r → object_like r = true.
Proof.
  destruct u as [|s b]; simpl; [discriminate|].
  destruct (validateStatus s); [|discriminate].
  intros H. apply set_prop_object_like in H. apply H.
Qed.

Lemma handleErrorResponse_shape error t r t' :
  handleErrorResponse error t = (Normal r, t') → error_shaped r.
Proof.
  destruct error as [| |[response|]]; simpl;
    try (intros [= <- _]; repeat split; exists 500; reflexivity).
  unfold bind, emit, lift. simpl.
  destruct (get_prop (response_data response) "message") as [e|m];
    simpl; [discriminate|].
  intros [= <- _]. repeat split. exists (response_status response).
  reflexivity.
Qed.

Lemma or_default_error_shape r dflt t r' t' :
  error_shaped r →
  or_default_error r dflt t = (Normal r', t') → error_shaped r'.
Proof.
  intros (Hobj & Hstatus & Hdata & n & Hcode).
  unfold or_default_error, bind, lift.
  rewrite (get_prop_field r "error") by exact Hobj. simpl.
  destruct (negb (truthy (field r "error"))); simpl.
  - destruct (set_prop r "error" (JStr dflt)) as [e|r''] eqn:Hset;
      simpl; [discriminate|].
    intros [= <- _]. split; [|split; [|split]].
    + apply (set_prop_object_like _ _ _ _ Hset).
    + rewrite (field_set_prop_ne _ _ _ _ "status" Hset) by discriminate.
      exact Hstatus.
    + rewrite (field_set_prop_ne _ _ _ _ "data" Hset) by discriminate.
      exact Hdata.
    + exists n.
      rewrite (field_set_prop_ne _ _ _ _ "statusCode" Hset) by discriminate.
      exact Hcode.
  - intros [= <- _]. repeat split; eauto.
Qed.

Lemma give_up_shape dflt error t r t' :
  (errorResponse <- handleErrorResponse error ;;
   or_default_error errorResponse dflt) t = (Normal r, t') →
  error_shaped r.
Proof.
  unfold bind at 1.
  destruct (handleErrorResponse error t) as [[r0|e] t0] eqn:H0;
    [|discriminate].
  apply or_default_error_shape. eapply handleErrorResponse_shape, H0.
Qed.

(** Whatever [getNewSession] returns is a normalised error or the body of
    a fulfilled fetch with its [statusCode] overwritten. *)
Lemma getNewSession_result env k : ∀ retries t r t',
  (newSessionRetries - retries = k)%nat →
  TwoStage.getNewSession env retries t = (Normal r, t') →
  error_shaped r ∨ ∃ i, try_outcome (session_endpoint env i) = inr r.
Proof.
  induction k as [|k IH]; intros retries t r t' Hk;
    rewrite getNewSession_step;
    destruct (try_outcome _) as [e|v] eqn:Hv;
    try (intros [= <- _]; right; eauto).
  - retries_used_up.
    intros H. left. eapply give_up_shape, H.
  - retries_left.
    apply IH. lia.
Qed.

Lemma error_shaped_object_like r : error_shaped r → object_like r = true.
Proof. intros H. apply H. Qed.

Lemma getNewSession_object_like env retries t r t' :
  TwoStage.getNewSession env retries t = (Normal r, t') →
  object_like r = true.
Proof.
  intros H. eapply getNewSession_result in H; [|reflexivity].
  destruct H as [H|[i H]].
  - apply error_shaped_object_like, H.
  - eapply try_outcome_object_like, H.
Qed.

(** ** The same loop in the session-only gateway *)

Lemma so_getNewSession_step env retries t :
  SessionOnly.getNewSession env retries t =
  match try_outcome (session_endpoint env (count_events is_get t)) with
  | inr v => (Normal v, t ++ [EvGet (SessionOnly.sessionUrl env)])
  | inl e =>
      if (retries <? newSessionRetries)%nat
      then SessionOnly.getNewSession env (retries + 1)
             (t ++ [EvGet (SessionOnly.sessionUrl env); EvWait 1])
      else handleErrorResponse e
             (t ++ [EvGet (SessionOnly.sessionUrl env); EvWait 1])
  end.
Proof.
  rewrite SessionOnly.getNewSession_equation_1.
  unfold try_catch at 1. rewrite session_try_run.
  destruct (try_outcome _) as [e|v]; [|reflexivity].
  unfold bind at 1, wait, emit. rewrite <- List.app_assoc. simpl.
  destruct (lt_dec retries newSessionRetries) as [Hlt|Hge].
  - apply Nat.ltb_lt in Hlt. rewrite Hlt. reflexivity.
  - apply Nat.ltb_nlt in Hge. rewrite Hge. reflexivity.
Qed.

Lemma so_getNewSession_spec env k : ∀ retries t,
  (newSessionRetries - retries = k)%nat →
  (∃ added,
     snd (SessionOnly.getNewSession env retries t) = t ++ added
     ∧ count_events is_post added = 0%nat)
  ∧ ∀ r, fst (SessionOnly.getNewSession env retries t) = Normal r →
         object_like r = true.
Proof.
  induction k as [|k IH]; intros retries t Hk; rewrite so_getNewSession_step;
    destruct (try_outcome _) as [e|v] eqn:Hv;
    try (split; [exists [EvGet (SessionOnly.sessionUrl env)]; split;
                   reflexivity
                |intros r [= <-]; eapply try_outcome_object_like, Hv]).
  - retries_used_up.
    split.
    + exists ([EvGet (SessionOnly.sessionUrl env); EvWait 1] ++ error_log e).
      rewrite handleErrorResponse_trace, <- List.app_assoc.
      rewrite !count_events_app, !count_error_log by reflexivity.
      split; reflexivity.
    + intros r Hr.
      destruct (handleErrorResponse e _) as [c t'] eqn:Hrun. simpl in Hr.
      subst c. eapply error_shaped_object_like, handleErrorResponse_shape, Hrun.
  - retries_left.
    destruct (IH (retries + 1)%nat
                (t ++ [EvGet (SessionOnly.sessionUrl env); EvWait 1]))
      as ((added & Hrun & Hpost) & Hobj); [lia|].
    split; [|exact Hobj].
    exists ([EvGet (SessionOnly.sessionUrl env); EvWait 1] ++ added).
    rewrite Hrun, <- List.app_assoc, !count_events_app, Hpost.
    split; reflexivity.
Qed.

(** ** One completion call *)

Lemma completion_try_run env url body t :
  (response <- axios_post env url body ;; as_ApiResponse response) t =
  (match try_outcome (completion_endpoint env body) with
   | inr v => Normal v
   | inl e => Throw e
   end, t ++ [EvPost url body]).
Proof.
  unfold bind, axios_post, bind, emit, try_outcome, axios_settle,
    as_ApiResponse. simpl.
  destruct (completion_endpoint env body) as [|status b];
    simpl; [reflexivity|].
  destruct (validateStatus status); simpl; [|reflexivity].
  destruct (set_prop b "statusCode" (JNum status)); reflexivity.
Qed.

Lemma getCompletion_run_two_stage env completionRequest t :
  truthy (TwoStage.session completionRequest) = true →
  let body := TwoStage.CompletionRequest_js completionRequest in
  let t1 := t ++ [EvPost (TwoStage.completionUrl env) body] in
  TwoStage.getCompletionWithOpenAi env completionRequest t =
  match try_outcome (completion_endpoint env body) with
  | inr v => (Normal v, t1)
  | inl e => give_up_completion e t1
  end.
Proof.
  intros Hs body t1. unfold TwoStage.getCompletionWithOpenAi.
  rewrite Hs. change (negb true) with false. cbv iota.
  unfold try_catch. rewrite completion_try_run.
  destruct (try_outcome _); reflexivity.
Qed.

Lemma getCompletion_run_session_only env session t :
  truthy session = true →
  let t1 := t ++ [EvPost (SessionOnly.completionUrl env) session] in
  SessionOnly.getCompletionWithOpenAi env session t =
  match try_outcome (completion_endpoint env session) with
  | inr v => (Normal v, t1)
  | inl e => handleErrorResponse e t1
  end.
Proof.
  intros Hs t1. unfold SessionOnly.getCompletionWithOpenAi.
  rewrite Hs. change (negb true) with false. cbv iota.
  unfold try_catch. rewrite completion_try_run.
  destruct (try_outcome _); reflexivity.
Qed.

Lemma give_up_completion_trace error t :
  snd (give_up_completion error t) = t ++ error_log error.
Proof. apply give_up_trace. Qed.

(** At most one POST, and a result that takes properties. *)
Lemma getCompletion_spec_two_stage env completionRequest t :
  (∃ added,
     snd (TwoStage.getCompletionWithOpenAi env completionRequest t) = t ++ added
     ∧ count_events is_post added =
       (if truthy (TwoStage.session completionRequest) then 1 else 0)%nat
     ∧ count_events is_get added = 0%nat)
  ∧ ∀ r, fst (TwoStage.getCompletionWithOpenAi env completionRequest t)
         = Normal r → object_like r = true.
Proof.
  destruct (truthy (TwoStage.session completionRequest)) eqn:Hs.
  - rewrite getCompletion_run_two_stage by exact Hs. cbv zeta.
    destruct (try_outcome _) as [e|v] eqn:Hv.
    + split.
      * eexists. rewrite give_up_completion_trace, <- List.app_assoc.
        split; [reflexivity|].
        rewrite !count_events_app, !count_error_log by reflexivity.
        split; reflexivity.
      * intros r Hr.
        destruct (give_up_completion e _) as [c t'] eqn:Hrun. simpl in Hr.
        subst c. eapply error_shaped_object_like, give_up_shape, Hrun.
    + split.
      * eexists. split; [reflexivity|]. split; reflexivity.
      * intros r [= <-]. eapply try_outcome_object_like, Hv.
  - rewrite getCompletion_guard_two_stage by exact Hs. split.
    + exists []. rewrite List.app_nil_r. repeat split.
    + intros r [= <-]. reflexivity.
Qed.

Lemma getCompletion_spec_session_only env session t :
  (∃ added,
     snd (SessionOnly.getCompletionWithOpenAi env session t) = t ++ added
     ∧ count_events is_post added = (if truthy session then 1 else 0)%nat
     ∧ count_events is_get added = 0%nat)
  ∧ ∀ r, fst (SessionOnly.getCompletionWithOpenAi env session t) = Normal r →
         object_like r = true.
Proof.
  destruct (truthy session) eqn:Hs.
  - rewrite getCompletion_run_session_only by exact Hs. cbv zeta.
    destruct (try_outcome _) as [e|v] eqn:Hv.
    + split.
      * eexists. rewrite handleErrorResponse_trace, <- List.app_assoc.
        split; [reflexivity|].
        rewrite !count_events_app, !count_error_log by reflexivity.
        split; reflexivity.
      * intros r Hr.
        destruct (handleErrorResponse e _) as [c t'] eqn:Hrun. simpl in Hr.
        subst c.
        eapply error_shaped_object_like, handleErrorResponse_shape, Hrun.
    + split.
      * eexists. split; [reflexivity|]. split; reflexivity.
      * intros r [= <-]. eapply try_outcome_object_like, Hv.
  - rewrite getCompletion_guard_session_only by exact Hs. split.
    + exists []. rewrite List.app_nil_r. repeat split.
    + intros r [= <-]. reflexivity.
Qed.

(** ** The handlers, stage by stage *)

Lemma handleConversation_run env req res t sessionResponse t1 :
  TwoStage.getNewSession env 0 t = (Normal sessionResponse, t1) →
  TwoStage.handleConversation env req res t =
  if negb (truthy (field sessionResponse "status"))
  then (Normal (relay sessionResponse res), t1)
  else
    match TwoStage.getCompletionWithOpenAi env
            (TwoStage.mkCompletionRequest (field sessionResponse "data")
               (req_body req)) t1 with
    | (Normal completionResponse, t2) =>
        (Normal (relay completionResponse res), t2)
    | (Throw e, t2) => (Throw e, t2)
    end.
Proof.
  intros Hrun.
  pose proof (getNewSession_object_like _ _ _ _ _ Hrun) as Hobj.
  unfold TwoStage.handleConversation, bind at 1. rewrite Hrun.
  unfold bind at 1. rewrite (get_prop_field _ "status" Hobj).
  unfold lift at 1, ret at 1.
  destruct (negb (truthy (field sessionResponse "status"))).
  - unfold bind. rewrite (get_prop_field _ "statusCode" Hobj). reflexivity.
  - unfold bind at 1. rewrite (get_prop_field _ "data" Hobj).
    unfold lift at 1, ret at 1. unfold bind at 1.
    pose proof (proj2 (getCompletion_spec_two_stage env
      (TwoStage.mkCompletionRequest (field sessionResponse "data")
         (req_body req)) t1)) as Hc.
    destruct (TwoStage.getCompletionWithOpenAi _ _ _) as [[cr|e] t2];
      [|reflexivity].
    unfold bind. rewrite (get_prop_field _ "statusCode" (Hc cr eq_refl)).
    reflexivity.
Qed.

Lemma handleChatCompletion_run env req res t sessionResponse t1 :
  SessionOnly.getNewSession env 0 t = (Normal sessionResponse, t1) →
  SessionOnly.handleChatCompletion env req res t =
  if negb (truthy (field sessionResponse "status"))
  then (Normal (relay sessionResponse res), t1)
  else
    match SessionOnly.getCompletionWithOpenAi env
            (field sessionResponse "data") t1 with
    | (Normal completionResponse, t2) =>
        (Normal (relay completionResponse res), t2)
    | (Throw e, t2) => (Throw e, t2)
    end.
Proof.
  intros Hrun.
  assert (Hobj : object_like sessionResponse = true).
  { apply (proj2 (so_getNewSession_spec env _ 0 t eq_refl)).
    rewrite Hrun. reflexivity. }
  unfold SessionOnly.handleChatCompletion, bind at 1. rewrite Hrun.
  unfold bind at 1. rewrite (get_prop_field _ "status" Hobj).
  unfold lift at 1, ret at 1.
  destruct (negb (truthy (field sessionResponse "status"))).
  - unfold bind. rewrite (get_prop_field _ "statusCode" Hobj). reflexivity.
  - unfold bind at 1. rewrite (get_prop_field _ "data" Hobj).
    unfold lift at 1, ret at 1. unfold bind at 1.
    pose proof (proj2 (getCompletion_spec_session_only env
      (field sessionResponse "data") t1)) as Hc.
    destruct (SessionOnly.getCompletionWithOpenAi _ _ _) as [[cr|e] t2];
      [|reflexivity].
    unfold bind. rewrite (get_prop_field _ "statusCode" (Hc cr eq_refl)).
    reflexivity.
Qed.

Lemma getNewSession_no_post env t c t1 :
  TwoStage.getNewSession env 0 t = (c, t1) →
  count_events is_post t1 = count_events is_post t.
Proof.
  intros Hrun.
  destruct (getNewSession_bounded env _ 0 t eq_refl)
    as (added & Ht & _ & _ & Hpost).
  rewrite Hrun in Ht. simpl in Ht. subst t1.
  rewrite count_events_app, Hpost. lia.
Qed.


(** ** Termination of session acquisition *)

(** C9: [getNewSession] always returns, whatever the session endpoint
    answers: the recursion is well-founded on [100 - retries], and a run
    that starts with [retries] retries behind it makes at least one and at
    most [1 + (100 - retries)] fetches, 101 for the handler's call, that is
    at most 100 retries; it never touches the completion endpoint.  When
    every attempt meets a network error the handler answers 500 with the
    generic error result once the 100 retries are used up. *)
Theorem getNewSession_terminates env t :
  (∀ retries, ∃ added,
     snd (TwoStage.getNewSession env retries t) = t ++ added
     ∧ (1 ≤ count_events is_get added ≤ 1 + (newSessionRetries - retries))%nat
     ∧ count_events is_post added = 0%nat)
  ∧ ((∀ i, session_endpoint env (count_events is_get t + i) = NetworkFailure) →
     ∀ req res,
       TwoStage.handleConversation env req res t =
       (Normal (res_json generic_error (res_status (JNum 500) res)),
        t ++ retry_trace (TwoStage.sessionUrl env) (1 + newSessionRetries))
       ∧ field generic_error "error" = JStr "Internal server error").
Proof.
  split.
  - intros retries.
    destruct (getNewSession_bounded env _ retries t eq_refl)
      as (added & Hrun & Hget & _ & Hpost).
    exists added. auto.
  - intros Hfail req res. split; [|reflexivity].
    rewrite (handleConversation_run env req res t generic_error
               (t ++ retry_trace (TwoStage.sessionUrl env)
                       (1 + newSessionRetries))).
    + reflexivity.
    + apply getNewSession_unreachable. intros i _. apply Hfail.
Qed.

(** A session endpoint that never answers. *)
Lemma getNewSession_terminates_witness :
  (∀ i, session_endpoint env_unreachable (count_events is_get [] + i)
        = NetworkFailure)
  ∧ ∀ req res,
      TwoStage.handleConversation env_unreachable req res [] =
      (Normal (res_json generic_error (res_status (JNum 500) res)),
       retry_trace "undefined/v1/new-openai-session" 101).
Proof.
  assert (H : ∀ i, session_endpoint env_unreachable
                     (count_events is_get [] + i) = NetworkFailure)
    by (intros i; reflexivity).
  split; [exact H|]. intros req res.
  exact (proj1 (proj2 (getNewSession_terminates env_unreachable []) H req res)).
Defined.


(** ** What the handlers relay *)













(** C10: when the session fetch reports a truthy [status] but its [data]
    is absent or falsy, the handler still goes on to the completion stage,
    whose guard fires: the caller gets 500 with the generic error result
    (status false, error "Internal server error") and nothing is sent to
    the completion endpoint. *)
Theorem handler_without_session_data env req res t sessionResponse t1 :
  TwoStage.getNewSession env 0 t = (Normal sessionResponse, t1) →
  truthy (field sessionResponse "status") = true →
  truthy (field sessionResponse "data") = false →
  TwoStage.getCompletionWithOpenAi env
    (TwoStage.mkCompletionRequest (field sessionResponse "data")
       (req_body req)) t1
  = (Normal generic_error, t1)
  ∧ TwoStage.handleConversation env req res t =
    (Normal (res_json generic_error (res_status (JNum 500) res)), t1)
  ∧ count_events is_post t1 = count_events is_post t
  ∧ field generic_error "status" = JBool false
  ∧ field generic_error "error" = JStr "Internal server error".
Proof.
  intros Hrun Hstatus Hdata.
  assert (Hguard : TwoStage.getCompletionWithOpenAi env
    (TwoStage.mkCompletionRequest (field sessionResponse "data")
       (req_body req)) t1 = (Normal generic_error, t1))
    by (apply getCompletion_guard_two_stage; exact Hdata).
  split; [exact Hguard|]. split.
  - rewrite (handleConversation_run _ _ _ _ _ _ Hrun), Hstatus, Hguard.
    reflexivity.
  - split; [eapply getNewSession_no_post, Hrun|split; reflexivity].
Qed.

(** A session endpoint that answers 200 with [{status: true}]. *)
Lemma handler_without_session_data_witness :
  let sessionResponse := obj [("status", JBool true); ("statusCode", JNum 200)] in
  let t1 := [EvGet "undefined/v1/new-openai-session"] in
  TwoStage.getNewSession env_no_data 0 [] = (Normal sessionResponse, t1)
  ∧ truthy (field sessionResponse "status") = true
  ∧ truthy (field sessionResponse "data") = false
  ∧ TwoStage.handleConversation env_no_data sample_request fresh_res [] =
    (Normal (res_json generic_error (res_status (JNum 500) fresh_res)), t1).
Proof.
  intros sessionResponse t1.
  assert (H1 : TwoStage.getNewSession env_no_data 0 [] =
                 (Normal sessionResponse, t1)) by (vm_compute; reflexivity).
  split; [exact H1|]. split; [reflexivity|]. split; [reflexivity|].
  exact (proj1 (proj2 (handler_without_session_data env_no_data sample_request
           fresh_res [] sessionResponse t1 H1 eq_refl eq_refl))).
Defined.

(** ** Which failures are retried *)

Lemma give_up_http_error dflt status body message t :
  get_prop body "message" = inr message →
  (errorResponse <- handleErrorResponse
                      (AxiosError (Some (mkResponse status body))) ;;
   or_default_error errorResponse dflt) t =
  (Normal (error_result status
             (if truthy message then message else JStr dflt)),
   t ++ [EvLog status body]).
Proof.
  intros Hm. unfold bind at 1. simpl handleErrorResponse.
  unfold bind at 1, emit at 1. unfold bind at 1. rewrite Hm.
  unfold lift at 1, ret at 1, ret at 1.
  unfold or_default_error, bind.
  change (get_prop (obj [("status", JBool false); ("statusCode", JNum status);
                         ("error", message)]) "error") with
    (@inr JsError JsVal message).
  unfold lift at 1, ret at 1.
  destruct (truthy message); simpl negb; cbv iota; [reflexivity|].
  vm_compute. reflexivity.
Qed.

(** C2 (amended): in session acquisition only a fulfilled fetch (a 2xx
    answer whose body takes the [statusCode] property) is returned at once,
    after a single call.  Every attempt that throws is retried after the
    delay while fewer than 100 retries were made, and an upstream HTTP
    error response (any status outside 200..299) throws just as a transport
    failure does; its status code and message reach the caller only when it
    is the 101st failure in a row. *)
Theorem getNewSession_retry_policy env retries t :
  let u := session_endpoint env (count_events is_get t) in
  let url := TwoStage.sessionUrl env in
  let run := TwoStage.getNewSession env retries t in
  (∀ v, try_outcome u = inr v → run = (Normal v, t ++ [EvGet url]))
  ∧ (∀ e, try_outcome u = inl e →
       ((retries < newSessionRetries)%nat →
          run = TwoStage.getNewSession env (retries + 1)
                  (t ++ [EvGet url; EvWait 1]))
       ∧ ((newSessionRetries ≤ retries)%nat →
          run = give_up_session e (t ++ [EvGet url; EvWait 1])))
  ∧ (∀ status body, u = Reply status body → validateStatus status = false →
       try_outcome u = inl (AxiosError (Some (mkResponse status body)))
       ∧ ∀ message tr, get_prop body "message" = inr message →
           give_up_session (AxiosError (Some (mkResponse status body))) tr =
           (Normal (error_result status
                      (if truthy message then message
                       else JStr "Error while getting session...")),
            tr ++ [EvLog status body]))
  ∧ (u = NetworkFailure → try_outcome u = inl (AxiosError None)).
Proof.
  intros u url run. subst run. rewrite getNewSession_step. fold u. fold url.
  split; [|split; [|split]].
  - intros v ->. reflexivity.
  - intros e ->. split; intros H.
    + apply Nat.ltb_lt in H. rewrite H. reflexivity.
    + apply Nat.ltb_ge in H. rewrite H. reflexivity.
  - intros status body -> Hs. split.
    + simpl. rewrite Hs. reflexivity.
    + intros message tr Hm. apply give_up_http_error, Hm.
  - intros ->. reflexivity.
Qed.

(** A session endpoint that answers 404: the first attempt is retried, and
    only the attempt made with 100 retries behind it gives up. *)
Lemma getNewSession_retry_policy_witness :
  let url := "undefined/v1/new-openai-session" in
  try_outcome (session_endpoint env_404 (count_events is_get []))
    = inl (AxiosError (Some (mkResponse 404 upstream_404_body)))
  ∧ (0 < newSessionRetries)%nat
  ∧ TwoStage.getNewSession env_404 0 [] =
    TwoStage.getNewSession env_404 (0 + 1) [EvGet url; EvWait 1]
  ∧ (newSessionRetries ≤ 100)%nat
  ∧ TwoStage.getNewSession env_404 100 [] =
    give_up_session (AxiosError (Some (mkResponse 404 upstream_404_body)))
      [EvGet url; EvWait 1].
Proof.
  intros url.
  assert (H0 : try_outcome (session_endpoint env_404 (count_events is_get []))
    = inl (AxiosError (Some (mkResponse 404 upstream_404_body))))
    by reflexivity.
  assert (H1 : (0 < newSessionRetries)%nat) by (unfold newSessionRetries; lia).
  assert (H2 : (newSessionRetries ≤ 100)%nat) by (unfold newSessionRetries; lia).
  split; [exact H0|]. split; [exact H1|]. split.
  { exact (proj1 (proj1 (proj2 (getNewSession_retry_policy env_404 0 []))
                   _ H0) H1). }
  split; [exact H2|].
  exact (proj2 (proj1 (proj2 (getNewSession_retry_policy env_404 100 []))
                 _ H0) H2).
Defined.

(** A session endpoint that answers 404 for ever is fetched 101 times
    before its status and message come back. *)
Example getNewSession_persistent_404 :
  TwoStage.getNewSession env_404 0 [] =
  (Normal (error_result 404 (JStr "not found")),
   retry_trace "undefined/v1/new-openai-session" 101
     ++ [EvLog 404 upstream_404_body]).
Proof. vm_compute. reflexivity. Qed.

(** C2 as stated fails: the session endpoint answers 404 with a JSON body
    on the first call; the loop does not return that answer, it waits,
    calls again and returns the session of the second call. *)
Lemma http_error_response_is_retried :
  session_endpoint env_404_then_ok 0 = Reply 404 upstream_404_body
  ∧ validateStatus 404 = false
  ∧ TwoStage.getNewSession env_404_then_ok 0 [] =
    (Normal sample_session,
     [EvGet "undefined/v1/new-openai-session"; EvWait 1;
      EvGet "undefined/v1/new-openai-session"])
  ∧ count_events is_get (snd (TwoStage.getNewSession env_404_then_ok 0 []))
    ≠ 1%nat
  ∧ field sample_session "statusCode" ≠ JNum 404.
Proof.
  split; [reflexivity|]. split; [reflexivity|].
  assert (H : TwoStage.getNewSession env_404_then_ok 0 [] =
    (Normal sample_session,
     [EvGet "undefined/v1/new-openai-session"; EvWait 1;
      EvGet "undefined/v1/new-openai-session"])) by (vm_compute; reflexivity).
  split; [exact H|]. rewrite H. split.
  - vm_compute. discriminate.
  - vm_compute. discriminate.
Qed.

(** ** The shape of results *)

Lemma error_shaped_invariant r : error_shaped r → uniform_invariant r.
Proof.
  intros (_ & Hstatus & Hdata & _). unfold uniform_invariant.
  rewrite Hstatus, Hdata. split; [discriminate|]. intros [_ H]. now elim H.
Qed.

Lemma passthrough_invariant status body r :
  set_prop body "statusCode" (JNum status) = inr r →
  uniform_invariant r ↔ uniform_invariant body.
Proof.
  intros Hset. unfold uniform_invariant.
  rewrite (field_set_prop_ne _ _ _ _ "status" Hset) by discriminate.
  rewrite (field_set_prop_ne _ _ _ _ "error" Hset) by discriminate.
  rewrite (field_set_prop_ne _ _ _ _ "data" Hset) by discriminate.
  reflexivity.
Qed.

Lemma try_outcome_reply u r :
  try_outcome u = inr r →
  ∃ status body, u = Reply status body ∧ validateStatus status = true
                 ∧ set_prop body "statusCode" (JNum status) = inr r.
Proof.
  destruct u as [|status body]; simpl; [discriminate|].
  destruct (validateStatus status) eqn:Hs; [|discriminate].
  intros H. exists status, body. auto.
Qed.

(** C3 (amended): a result built by error normalisation
    ([handleErrorResponse], with or without the default message) has
    [status] false and no [data], so it satisfies the invariant.  Any other
    result of [getNewSession] or [getCompletionWithOpenAi] is the body of a
    fulfilled fetch with only [statusCode] overwritten, and satisfies the
    invariant exactly when the upstream body does. *)
Theorem results_invariant env :
  (∀ error t r t',
     handleErrorResponse error t = (Normal r, t') →
     error_shaped r ∧ uniform_invariant r)
  ∧ (∀ retries t r t',
     TwoStage.getNewSession env retries t = (Normal r, t') →
     (error_shaped r ∧ uniform_invariant r)
     ∨ ∃ i status body,
         session_endpoint env i = Reply status body
         ∧ validateStatus status = true
         ∧ set_prop body "statusCode" (JNum status) = inr r
         ∧ (uniform_invariant r ↔ uniform_invariant body))
  ∧ (∀ completionRequest t r t',
     TwoStage.getCompletionWithOpenAi env completionRequest t = (Normal r, t') →
     (error_shaped r ∧ uniform_invariant r)
     ∨ ∃ status body,
         completion_endpoint env
           (TwoStage.CompletionRequest_js completionRequest)
         = Reply status body
         ∧ validateStatus status = true
         ∧ set_prop body "statusCode" (JNum status) = inr r
         ∧ (uniform_invariant r ↔ uniform_invariant body)).
Proof.
  split; [|split].
  - intros error t r t' H. apply handleErrorResponse_shape in H.
    split; [exact H|apply error_shaped_invariant, H].
  - intros retries t r t' H.
    eapply getNewSession_result in H; [|reflexivity].
    destruct H as [H|[i H]].
    + left. split; [exact H|apply error_shaped_invariant, H].
    + right. apply try_outcome_reply in H as (status & body & Hu & Hs & Hset).
      exists i, status, body.
      split; [exact Hu|]. split; [exact Hs|]. split; [exact Hset|].
      apply (passthrough_invariant _ _ _ Hset).
  - intros cr t r t'.
    destruct (truthy (TwoStage.session cr)) eqn:Hs.
    + rewrite getCompletion_run_two_stage by exact Hs. cbv zeta.
      destruct (try_outcome _) as [e|v] eqn:Hv.
      * intros H. apply give_up_shape in H.
        left. split; [exact H|apply error_shaped_invariant, H].
      * intros [= <- _]. right.
        apply try_outcome_reply in Hv as (status & body & Hu & Hst & Hset).
        exists status, body.
        split; [exact Hu|]. split; [exact Hst|]. split; [exact Hset|].
        apply (passthrough_invariant _ _ _ Hset).
    + rewrite getCompletion_guard_two_stage by exact Hs.
      intros [= <- _]. left.
      assert (error_shaped generic_error)
        by (repeat split; exists 500; reflexivity).
      split; [assumption|now apply error_shaped_invariant].
Qed.

(** The body [{status: true}] of a fulfilled fetch is passed through. *)
Lemma results_invariant_witness :
  let r := obj [("status", JBool true); ("statusCode", JNum 200)] in
  TwoStage.getNewSession env_no_data 0 [] =
    (Normal r, [EvGet "undefined/v1/new-openai-session"])
  ∧ ((error_shaped r ∧ uniform_invariant r)
     ∨ ∃ i status body,
         session_endpoint env_no_data i = Reply status body
         ∧ validateStatus status = true
         ∧ set_prop body "statusCode" (JNum status) = inr r
         ∧ (uniform_invariant r ↔ uniform_invariant body)).
Proof.
  intros r.
  assert (H : TwoStage.getNewSession env_no_data 0 [] =
    (Normal r, [EvGet "undefined/v1/new-openai-session"]))
    by (vm_compute; reflexivity).
  split; [exact H|].
  exact (proj1 (proj2 (results_invariant env_no_data)) 0%nat [] r _ H).
Defined.

(** C3 as stated fails: the session endpoint answers 200 with
    [{status: true}]; [getNewSession] returns that body, whose [status] is
    true while [data] is absent. *)
Lemma passed_through_result_breaks_invariant :
  let r := obj [("status", JBool true); ("statusCode", JNum 200)] in
  fst (TwoStage.getNewSession env_no_data 0 []) = Normal r
  ∧ field r "status" = JBool true
  ∧ field r "data" = JUndefined
  ∧ ¬ uniform_invariant r.
Proof.
  intros r. split; [vm_compute; reflexivity|].
  split; [reflexivity|]. split; [reflexivity|].
  intros [H _]. destruct (H eq_refl) as [_ Hd]. apply Hd. reflexivity.
Qed.

(** ** Routing *)

Lemma enableCORS_run req next t :
  enableCORS req fresh_res next t =
  if String.eqb (req_method req) "OPTIONS"
  then (Normal (res_end (res_status (JNum 200) cors_res)), t)
  else next cors_res t.
Proof.
  unfold enableCORS. fold cors_res.
  destruct (String.eqb (req_method req) "OPTIONS"); reflexivity.
Qed.

Lemma accepts_welcome_route req :
  express_accepts "get" "/" req = welcome_route req.
Proof.
  unfold express_accepts, welcome_route. simpl.
  rewrite Bool.andb_true_r. reflexivity.
Qed.

Lemma accepts_chat_route req :
  express_accepts "post" "/v1/chat/completions" req = chat_route req.
Proof.
  unfold express_accepts, chat_route. simpl.
  rewrite Bool.andb_false_r, Bool.orb_false_r. reflexivity.
Qed.

(** The middleware chain, link by link. *)
Lemma app_run_two_stage env inc t :
  TwoStage.app env inc t =
  match in_body inc with
  | Refused status page =>
      (Normal (error_handler_answer status page fresh_res), t)
  | Parsed body =>
      let req := request_of inc body in
      if String.eqb (in_method inc) "OPTIONS"
      then (Normal (res_end (res_status (JNum 200) cors_res)), t)
      else if welcome_route req then handleDefault req cors_res t
      else if chat_route req
           then TwoStage.handleConversation env req cors_res t
           else notFound env req cors_res t
  end.
Proof.
  unfold TwoStage.app, bodyParser_json.
  destruct (in_body inc) as [body|status page]; [|reflexivity].
  rewrite enableCORS_run, accepts_welcome_route, accepts_chat_route.
  fold (request_of inc body). cbv zeta.
  change (req_method (request_of inc body)) with (in_method inc).
  destruct (String.eqb (in_method inc) "OPTIONS"); [reflexivity|].
  destruct (welcome_route (request_of inc body)); [reflexivity|].
  destruct (chat_route (request_of inc body)); reflexivity.
Qed.

Lemma app_run_session_only env inc t :
  SessionOnly.app env inc t =
  match in_body inc with
  | Refused status page =>
      (Normal (error_handler_answer status page fresh_res), t)
  | Parsed body =>
      let req := request_of inc body in
      if String.eqb (in_method inc) "OPTIONS"
      then (Normal (res_end (res_status (JNum 200) cors_res)), t)
      else if welcome_route req then handleDefault req cors_res t
      else if chat_route req
           then SessionOnly.handleChatCompletion env req cors_res t
           else notFound env req cors_res t
  end.
Proof.
  unfold SessionOnly.app, bodyParser_json.
  destruct (in_body inc) as [body|status page]; [|reflexivity].
  rewrite enableCORS_run, accepts_welcome_route, accepts_chat_route.
  fold (request_of inc body). cbv zeta.
  change (req_method (request_of inc body)) with (in_method inc).
  destruct (String.eqb (in_method inc) "OPTIONS"); [reflexivity|].
  destruct (welcome_route (request_of inc body)); [reflexivity|].
  destruct (chat_route (request_of inc body)); reflexivity.
Qed.

(** C5 (amended): a request whose body the JSON body parser refuses is
    answered with the status of the parser's error (400, 413, ...) before
    any route is looked at.  Of the requests whose body is accepted, an
    OPTIONS request is answered 200 with nothing written, whatever its
    path; every other one that is neither GET or HEAD on [/] nor POST on
    [/v1/chat/completions] (a slash at the end and the case of letters do
    not count) is answered 404 with a body whose [error.type] is
    "invalid_request_error".  Both gateways route alike. *)
Theorem routing_fallback env inc t :
  (∀ status page,
     in_body inc = Refused status page →
     TwoStage.app env inc t =
       (Normal (error_handler_answer status page fresh_res), t)
     ∧ SessionOnly.app env inc t =
       (Normal (error_handler_answer status page fresh_res), t)
     ∧ res_statusCode (error_handler_answer status page fresh_res)
       = JNum status)
  ∧ (∀ body,
     in_body inc = Parsed body →
     in_method inc = "OPTIONS" →
     TwoStage.app env inc t =
       (Normal (res_end (res_status (JNum 200) cors_res)), t)
     ∧ SessionOnly.app env inc t =
       (Normal (res_end (res_status (JNum 200) cors_res)), t))
  ∧ (∀ body,
     in_body inc = Parsed body →
     in_method inc ≠ "OPTIONS" →
     welcome_route (request_of inc body) = false →
     chat_route (request_of inc body) = false →
     let req := request_of inc body in
     let json := not_found_json (not_found_message env req) in
     let answer := res_send json (res_status (JNum 404) cors_res) in
     TwoStage.app env inc t = (Normal answer, t)
     ∧ SessionOnly.app env inc t = (Normal answer, t)
     ∧ res_statusCode answer = JNum 404
     ∧ res_written answer = [Json json]
     ∧ field (field json "error") "type" = JStr "invalid_request_error"
     ∧ field json "status" = JBool false).
Proof.
  rewrite app_run_two_stage, app_run_session_only.
  split; [|split].
  - intros status page ->. repeat split.
  - intros body -> ->. split; reflexivity.
  - intros body -> Hm Hw Hc. cbv zeta.
    apply String.eqb_neq in Hm. rewrite Hm, Hw, Hc.
    repeat split; reflexivity.
Qed.

(** [GET /unknown-path], a preflight request to the chat route, and a chat
    request whose body is not JSON. *)
Lemma routing_fallback_witness :
  let inc := unknown_path "GET" (Parsed JUndefined) in
  let preflight :=
    mkIncoming "OPTIONS" "/v1/chat/completions" (Parsed JUndefined) in
  let broken := mkIncoming "POST" "/v1/chat/completions" (Refused 400 "Bad Request") in
  in_method inc ≠ "OPTIONS"
  ∧ welcome_route (request_of inc JUndefined) = false
  ∧ chat_route (request_of inc JUndefined) = false
  ∧ TwoStage.app env_unreachable inc [] =
    (Normal
       (res_send
          (not_found_json
             (not_found_message env_unreachable (request_of inc JUndefined)))
          (res_status (JNum 404) cors_res)), [])
  ∧ TwoStage.app env_unreachable preflight [] =
    (Normal (res_end (res_status (JNum 200) cors_res)), [])
  ∧ TwoStage.app env_unreachable broken [] =
    (Normal (error_handler_answer 400 "Bad Request" fresh_res), []).
Proof.
  intros inc preflight broken.
  assert (H0 : in_method inc ≠ "OPTIONS") by discriminate.
  split; [exact H0|]. split; [reflexivity|]. split; [reflexivity|]. split.
  { exact (proj1 (proj2 (proj2 (routing_fallback env_unreachable inc []))
                   JUndefined eq_refl H0 eq_refl eq_refl)). }
  split.
  { exact (proj1 (proj1 (proj2 (routing_fallback env_unreachable preflight []))
                   JUndefined eq_refl eq_refl)). }
  exact (proj1 (proj1 (routing_fallback env_unreachable broken [])
                  400 "Bad Request" eq_refl)).
Defined.

(** C5 as stated fails, three times over, each on a pair that is not
    [GET /] and not [POST /v1/chat/completions]: [OPTIONS /unknown-path]
    is answered 200 by the CORS middleware, with no body; [HEAD /] is
    served by the route of [GET /] and answered 200; and
    [PUT /unknown-path] with a body that is not JSON is answered 400 by
    the body parser. *)
Lemma options_unknown_path_is_200 :
  let preflight := unknown_path "OPTIONS" (Parsed JUndefined) in
  let head := mkIncoming "HEAD" "/" (Parsed JUndefined) in
  let broken := unknown_path "PUT" (Refused 400 "Bad Request") in
  (TwoStage.app env_unreachable preflight [] =
     (Normal (res_end (res_status (JNum 200) cors_res)), [])
   ∧ res_statusCode (res_end (res_status (JNum 200) cors_res)) ≠ JNum 404
   ∧ res_written (res_end (res_status (JNum 200) cors_res)) = [])
  ∧ (∃ res, TwoStage.app env_unreachable head [] = (Normal res, [])
            ∧ res_statusCode res = JNum 200
            ∧ res_written res =
              [Text "Welcome OpenAI Gateway API - The service running correctly"])
  ∧ (∃ res, TwoStage.app env_unreachable broken [] = (Normal res, [])
            ∧ res_statusCode res = JNum 400
            ∧ res_statusCode res ≠ JNum 404).
Proof.
  intros preflight head broken. split; [|split].
  - split; [reflexivity|]. split; [discriminate|reflexivity].
  - eexists. split; [reflexivity|]. split; reflexivity.
  - eexists. split; [reflexivity|]. split; [reflexivity|discriminate].
Qed.

(** ** The round trip *)

(** C6 (amended): when the session endpoint answers 200 with
    [{statusCode: 200, status: true, data: bundle}], [bundle] being truthy,
    and the completion endpoint echoes the composed request with status
    200, the handler answers 200 and its body is the echoed composed
    request [{session: bundle, conversation: req.body}] with one more
    field, [statusCode: 200]. *)
Theorem round_trip env req res t bundle :
  let composed :=
    TwoStage.CompletionRequest_js
      (TwoStage.mkCompletionRequest bundle (req_body req)) in
  let echoed :=
    obj [("session", bundle); ("conversation", req_body req);
         ("statusCode", JNum 200)] in
  session_endpoint env (count_events is_get t) =
    Reply 200 (obj [("statusCode", JNum 200); ("status", JBool true);
                    ("data", bundle)]) →
  truthy bundle = true →
  completion_endpoint env composed = Reply 200 composed →
  TwoStage.handleConversation env req res t =
    (Normal (res_json echoed (res_status (JNum 200) res)),
     t ++ [EvGet (TwoStage.sessionUrl env);
           EvPost (TwoStage.completionUrl env) composed])
  ∧ set_prop composed "statusCode" (JNum 200) = inr echoed
  ∧ field composed "statusCode" = JUndefined
  ∧ field echoed "statusCode" = JNum 200.
Proof.
  intros composed echoed Hsession Hbundle Hecho.
  assert (Hrun : TwoStage.getNewSession env 0 t =
    (Normal (obj [("statusCode", JNum 200); ("status", JBool true);
                  ("data", bundle)]),
     t ++ [EvGet (TwoStage.sessionUrl env)])).
  { rewrite (getNewSession_recovers env t 0
               (obj [("statusCode", JNum 200); ("status", JBool true);
                     ("data", bundle)])).
    - reflexivity.
    - lia.
    - intros i Hi. lia.
    - rewrite Nat.add_0_r, Hsession. vm_compute. reflexivity. }
  split; [|split; [|split]];
    [|vm_compute; reflexivity|vm_compute; reflexivity|vm_compute; reflexivity].
  rewrite (handleConversation_run _ _ _ _ _ _ Hrun).
  change (field (obj [("statusCode", JNum 200); ("status", JBool true);
                      ("data", bundle)]) "status") with (JBool true).
  change (field (obj [("statusCode", JNum 200); ("status", JBool true);
                      ("data", bundle)]) "data") with bundle.
  simpl negb. cbv iota.
  rewrite getCompletion_run_two_stage by exact Hbundle. cbv zeta.
  fold composed. rewrite Hecho.
  assert (try_outcome (Reply 200 composed) = inr echoed) as ->
    by (vm_compute; reflexivity).
  rewrite <- List.app_assoc. reflexivity.
Qed.

(** A session endpoint that answers at once and an echoing completion
    endpoint. *)
Lemma round_trip_witness :
  let env := env_reachable_after 0 in
  let bundle := obj [("token", JStr "t0")] in
  let composed :=
    obj [("session", bundle); ("conversation", req_body sample_request)] in
  session_endpoint env (count_events is_get []) =
    Reply 200 (obj [("statusCode", JNum 200); ("status", JBool true);
                    ("data", bundle)])
  ∧ truthy bundle = true
  ∧ completion_endpoint env composed = Reply 200 composed
  ∧ TwoStage.handleConversation env sample_request fresh_res [] =
    (Normal (res_json
               (obj [("session", bundle);
                     ("conversation", req_body sample_request);
                     ("statusCode", JNum 200)])
               (res_status (JNum 200) fresh_res)),
     [EvGet "undefined/v1/new-openai-session";
      EvPost "undefined/v1/generate-conversation" composed]).
Proof.
  intros env bundle composed.
  split; [reflexivity|]. split; [reflexivity|]. split; [reflexivity|].
  exact (proj1 (round_trip env sample_request fresh_res [] bundle
                  eq_refl eq_refl eq_refl)).
Defined.

(** C6 as stated fails: the body that the handler sends is not the
    composed request that the completion endpoint echoed; it carries a
    [statusCode] field that the composed request has not. *)
Lemma round_trip_body_is_not_the_echo :
  let env := env_reachable_after 0 in
  let composed :=
    obj [("session", obj [("token", JStr "t0")]);
         ("conversation", req_body sample_request)] in
  ∃ body t,
    TwoStage.handleConversation env sample_request fresh_res [] =
      (Normal (res_json body (res_status (JNum 200) fresh_res)), t)
    ∧ t = [EvGet "undefined/v1/new-openai-session";
           EvPost "undefined/v1/generate-conversation" composed]
    ∧ completion_endpoint env composed = Reply 200 composed
    ∧ body ≠ composed.
Proof.
  intros env composed.
  exists (obj [("session", obj [("token", JStr "t0")]);
               ("conversation", req_body sample_request);
               ("statusCode", JNum 200)]).
  eexists. split; [vm_compute; reflexivity|].
  split; [reflexivity|]. split; [reflexivity|].
  intros H. apply (f_equal (fun v => field v "statusCode")) in H.
  vm_compute in H. discriminate.
Qed.

(** ** The default message of a failed completion *)

(** C7 (amended): in the two-stage gateway a failed completion attempt
    whose normalised result has a falsy [error] gets the error
    "Error while getting completions...", its other fields unchanged; the
    session-only gateway returns the normalised result as it is. *)
Theorem completion_default_error env t :
  (∀ completionRequest e r0 t',
     truthy (TwoStage.session completionRequest) = true →
     try_outcome (completion_endpoint env
                    (TwoStage.CompletionRequest_js completionRequest))
     = inl e →
     handleErrorResponse e
       (t ++ [EvPost (TwoStage.completionUrl env)
                (TwoStage.CompletionRequest_js completionRequest)])
     = (Normal r0, t') →
     truthy (field r0 "error") = false →
     ∃ r, TwoStage.getCompletionWithOpenAi env completionRequest t
          = (Normal r, t')
          ∧ field r "error" = JStr "Error while getting completions..."
          ∧ ∀ k, k ≠ "error" → field r k = field r0 k)
  ∧ (∀ session e,
     truthy session = true →
     try_outcome (completion_endpoint env session) = inl e →
     SessionOnly.getCompletionWithOpenAi env session t =
     handleErrorResponse e
       (t ++ [EvPost (SessionOnly.completionUrl env) session])).
Proof.
  split.
  - intros cr e r0 t' Hs Hfail Hnorm Hfalsy.
    rewrite getCompletion_run_two_stage by exact Hs. cbv zeta.
    rewrite Hfail. unfold give_up_completion, bind at 1. rewrite Hnorm.
    pose proof (error_shaped_object_like _
                  (handleErrorResponse_shape _ _ _ _ Hnorm)) as Hobj.
    unfold or_default_error, bind.
    rewrite (get_prop_field _ "error" Hobj). unfold lift at 1, ret at 1.
    rewrite Hfalsy. simpl negb. cbv iota.
    destruct r0 as [| | | | |l m|m]; try discriminate; simpl.
    + eexists. split; [reflexivity|]. split.
      * unfold field. simpl. rewrite lookup_insert_eq. reflexivity.
      * intros k Hk. unfold field. simpl.
        rewrite lookup_insert_ne by congruence. reflexivity.
    + eexists. split; [reflexivity|]. split.
      * unfold field. simpl. rewrite lookup_insert_eq. reflexivity.
      * intros k Hk. unfold field. simpl.
        rewrite lookup_insert_ne by congruence. reflexivity.
  - intros session e Hs Hfail.
    rewrite getCompletion_run_session_only by exact Hs. cbv zeta.
    rewrite Hfail. reflexivity.
Qed.

(** A completion endpoint that answers 500 with [{}]. *)
Lemma completion_default_error_witness :
  let env := env_completion_fails in
  let cr := TwoStage.mkCompletionRequest (obj [("token", JStr "t0")]) (obj []) in
  let e := AxiosError (Some (mkResponse 500 (obj []))) in
  let t' := [EvPost "undefined/v1/generate-conversation"
               (TwoStage.CompletionRequest_js cr);
             EvLog 500 (obj [])] in
  truthy (TwoStage.session cr) = true
  ∧ try_outcome (completion_endpoint env (TwoStage.CompletionRequest_js cr))
    = inl e
  ∧ handleErrorResponse e
      ([] ++ [EvPost (TwoStage.completionUrl env)
                (TwoStage.CompletionRequest_js cr)])
    = (Normal (error_result 500 JUndefined), t')
  ∧ truthy (field (error_result 500 JUndefined) "error") = false
  ∧ (∃ r, TwoStage.getCompletionWithOpenAi env cr [] = (Normal r, t')
          ∧ field r "error" = JStr "Error while getting completions..."
          ∧ ∀ k, k ≠ "error" →
                 field r k = field (error_result 500 JUndefined) k)
  ∧ SessionOnly.getCompletionWithOpenAi env (TwoStage.session cr) [] =
    handleErrorResponse e
      ([] ++ [EvPost (SessionOnly.completionUrl env) (TwoStage.session cr)]).
Proof.
  intros env cr e t'.
  assert (H1 : truthy (TwoStage.session cr) = true) by reflexivity.
  assert (H2 : try_outcome
                 (completion_endpoint env (TwoStage.CompletionRequest_js cr))
               = inl e) by reflexivity.
  assert (H3 : handleErrorResponse e
      ([] ++ [EvPost (TwoStage.completionUrl env)
                (TwoStage.CompletionRequest_js cr)])
    = (Normal (error_result 500 JUndefined), t')) by (vm_compute; reflexivity).
  assert (H4 : truthy (field (error_result 500 JUndefined) "error") = false)
    by reflexivity.
  split; [exact H1|]. split; [exact H2|]. split; [exact H3|].
  split; [exact H4|]. split.
  { exact (proj1 (completion_default_error env []) cr e _ t' H1 H2 H3 H4). }
  exact (proj2 (completion_default_error env []) (TwoStage.session cr) e
           H1 eq_refl).
Defined.

(** C7 as stated fails: in the session-only gateway a completion endpoint
    that answers 500 with [{}] yields a result without any error string,
    and none is put in. *)
Lemma session_only_completion_keeps_missing_error :
  let session := obj [("token", JStr "t0")] in
  truthy session = true
  ∧ SessionOnly.getCompletionWithOpenAi env_completion_fails session [] =
    (Normal (error_result 500 JUndefined),
     [EvPost "undefined/v1/chat-completion" session; EvLog 500 (obj [])])
  ∧ field (error_result 500 JUndefined) "error" = JUndefined
  ∧ field (error_result 500 JUndefined) "error"
    ≠ JStr "Error while getting completions...".
Proof.
  intros session. split; [reflexivity|].
  split; [vm_compute; reflexivity|].
  split; [reflexivity|]. vm_compute. discriminate.
Qed.

(** * Further properties of the gateways *)

(** ** The shape of every run of the retry loop *)

Lemma try_outcome_thrown u e :
  try_outcome u = inl e → thrown_by_attempt e.
Proof.
  destruct u as [|status body]; simpl.
  - intros [= <-]. exact I.
  - destruct (validateStatus status) eqn:Hs.
    + destruct body; simpl; intros [= <-]; exact I.
    + intros [= <-]. exact Hs.
Qed.

Lemma error_log_length e : (length (error_log e) ≤ 1)%nat.
Proof. destruct e as [| |[r|]]; simpl; lia. Qed.

Lemma getNewSession_run_shape_aux env k : ∀ retries t,
  (newSessionRetries - retries = k)%nat →
  let url := TwoStage.sessionUrl env in
  let reply i := session_endpoint env (count_events is_get t + i) in
  (∃ n v, (n ≤ k)%nat
          ∧ (∀ i, (i < n)%nat → attempt_throws (reply i) = true)
          ∧ try_outcome (reply n) = inr v
          ∧ TwoStage.getNewSession env retries t =
            (Normal v, t ++ retry_trace url n ++ [EvGet url]))
  ∨ (∃ e, (∀ i, (i ≤ k)%nat → attempt_throws (reply i) = true)
          ∧ try_outcome (reply k) = inl e
          ∧ TwoStage.getNewSession env retries t =
            give_up_session e (t ++ retry_trace url (S k))).
Proof.
  induction k as [|k IH]; intros retries t Hk url reply;
    rewrite getNewSession_step; fold url.
  - destruct (try_outcome (session_endpoint env (count_events is_get t)))
      as [e|v] eqn:Hv.
    + right. exists e. retries_used_up.
      split; [|split].
      * intros i Hi. assert (i = 0)%nat as -> by lia.
        unfold reply, attempt_throws. rewrite Nat.add_0_r, Hv. reflexivity.
      * unfold reply. rewrite Nat.add_0_r. exact Hv.
      * reflexivity.
    + left. exists 0%nat, v.
      split; [lia|]. split; [intros i Hi; lia|]. split.
      * unfold reply. rewrite Nat.add_0_r. exact Hv.
      * reflexivity.
  - destruct (try_outcome (session_endpoint env (count_events is_get t)))
      as [e|v] eqn:Hv.
    + retries_left.
      assert (Hshift : ∀ i,
        session_endpoint env
          (count_events is_get (t ++ [EvGet url; EvWait 1]) + i)
        = reply (S i)).
      { intros i. unfold reply. rewrite count_events_app.
        change (count_events is_get [EvGet url; EvWait 1]) with 1%nat.
        f_equal. lia. }
      assert (H0 : attempt_throws (reply 0%nat) = true).
      { unfold reply, attempt_throws. rewrite Nat.add_0_r, Hv. reflexivity. }
      destruct (IH (retries + 1)%nat (t ++ [EvGet url; EvWait 1]))
        as [(n & v & Hn & Hfail & Hok & Hrun)|(e' & Hfail & Hlast & Hrun)];
        [lia| |].
      * left. exists (S n), v. split; [lia|]. split; [|split].
        -- intros [|i] Hi; [exact H0|]. rewrite <- Hshift. apply Hfail. lia.
        -- rewrite <- Hshift. exact Hok.
        -- fold url in Hrun. rewrite Hrun, <- List.app_assoc. reflexivity.
      * right. exists e'. split; [|split].
        -- intros [|i] Hi; [exact H0|]. rewrite <- Hshift. apply Hfail. lia.
        -- rewrite <- Hshift. exact Hlast.
        -- fold url in Hrun. rewrite Hrun, <- List.app_assoc. reflexivity.
    + left. exists 0%nat, v.
      split; [lia|]. split; [intros i Hi; lia|]. split.
      * unfold reply. rewrite Nat.add_0_r. exact Hv.
      * reflexivity.
Qed.

(** X1: every run of [getNewSession], whatever the session endpoint
    answers and whatever the counter it starts from, is a number [n] of
    failed fetches, each followed by [wait(1)], and then either one
    fetch that succeeds, whose outcome is the result ([n] is at most
    [100 - retries]), or, after [1 + (100 - retries)] failures, the
    normalisation of the last error alone, which logs at most one line. *)
Theorem getNewSession_run_shape env retries t :
  let url := TwoStage.sessionUrl env in
  let k := (newSessionRetries - retries)%nat in
  let reply i := session_endpoint env (count_events is_get t + i) in
  (∃ n v, (n ≤ k)%nat
          ∧ (∀ i, (i < n)%nat → attempt_throws (reply i) = true)
          ∧ try_outcome (reply n) = inr v
          ∧ TwoStage.getNewSession env retries t =
            (Normal v, t ++ retry_trace url n ++ [EvGet url]))
  ∨ (∃ e, (∀ i, (i ≤ k)%nat → attempt_throws (reply i) = true)
          ∧ try_outcome (reply k) = inl e
          ∧ TwoStage.getNewSession env retries t =
            give_up_session e (t ++ retry_trace url (S k))
          ∧ snd (TwoStage.getNewSession env retries t) =
            t ++ retry_trace url (S k) ++ error_log e
          ∧ (length (error_log e) ≤ 1)%nat).
Proof.
  intros url k reply.
  destruct (getNewSession_run_shape_aux env k retries t eq_refl)
    as [H|(e & Hfail & Hlast & Hrun)]; [left; exact H|].
  right. exists e. split; [exact Hfail|]. split; [exact Hlast|].
  split; [exact Hrun|]. split.
  - rewrite Hrun, give_up_session_trace, <- List.app_assoc. reflexivity.
  - apply error_log_length.
Qed.

(** ** The two gateways acquire sessions alike *)





(** ** Results sorted by their status code *)

Lemma passed_through_stage (P : Upstream → Prop) u r :
  P u → passed_through u r → stage_result P r.
Proof.
  intros HP Hpass. pose proof Hpass as (status & body & _ & Hs & Hset).
  exists status. split; [apply (field_set_prop_eq _ _ _ _ Hset)|].
  left. split; [exact Hs|]. exists u. auto.
Qed.

Lemma try_outcome_passed_through u v :
  try_outcome u = inr v → passed_through u v.
Proof. intros H. apply try_outcome_reply in H. exact H. Qed.

Lemma handleErrorResponse_status e t r t' :
  handleErrorResponse e t = (Normal r, t') →
  field r "statusCode" = JNum (error_status e).
Proof.
  destruct e as [| |[response|]]; simpl; try (intros [= <- _]; reflexivity).
  unfold bind, emit, lift. simpl.
  destruct (get_prop (response_data response) "message"); simpl;
    [discriminate|].
  intros [= <- _]. reflexivity.
Qed.

Lemma or_default_error_status r dflt t r' t' :
  object_like r = true →
  or_default_error r dflt t = (Normal r', t') →
  field r' "statusCode" = field r "statusCode".
Proof.
  intros Hobj. unfold or_default_error, bind, lift.
  rewrite (get_prop_field r "error") by exact Hobj. simpl.
  destruct (negb (truthy (field r "error"))); simpl.
  - destruct (set_prop r "error" (JStr dflt)) as [e|r''] eqn:Hset;
      simpl; [discriminate|].
    intros [= <- _].
    apply (field_set_prop_ne _ _ _ _ "statusCode" Hset). discriminate.
  - intros [= <- _]. reflexivity.
Qed.

Lemma error_status_not_2xx e :
  thrown_by_attempt e ∨ e = ErrNull → validateStatus (error_status e) = false.
Proof.
  intros [H| ->]; [|reflexivity].
  destruct e as [| |[response|]]; simpl in *; try reflexivity. exact H.
Qed.

Lemma handleErrorResponse_stage P e t r t' :
  thrown_by_attempt e ∨ e = ErrNull →
  handleErrorResponse e t = (Normal r, t') → stage_result P r.
Proof.
  intros He Hrun. exists (error_status e).
  split; [eapply handleErrorResponse_status, Hrun|].
  right. split; [apply error_status_not_2xx, He|].
  eapply handleErrorResponse_shape, Hrun.
Qed.

Lemma give_up_stage P dflt e t r t' :
  thrown_by_attempt e →
  (errorResponse <- handleErrorResponse e ;;
   or_default_error errorResponse dflt) t = (Normal r, t') →
  stage_result P r.
Proof.
  intros He Hrun. pose proof (give_up_shape _ _ _ _ _ Hrun) as Hshape.
  unfold bind at 1 in Hrun.
  destruct (handleErrorResponse e t) as [[r0|e0] t0] eqn:H0; [|discriminate].
  exists (error_status e). split.
  - rewrite (or_default_error_status _ _ _ _ _
               (error_shaped_object_like _
                  (handleErrorResponse_shape _ _ _ _ H0)) Hrun).
    eapply handleErrorResponse_status, H0.
  - right. split; [apply error_status_not_2xx; auto|exact Hshape].
Qed.

(** Any loop that takes the steps of [getNewSession], whatever it does to
    give up. *)
Section RetryLoop.
Variable env : Env.
Variable url : string.
Variable loop : nat → M JsVal.
Variable on_exhaustion : JsError → M JsVal.
Hypothesis loop_step : ∀ retries t,
  loop retries t =
  match try_outcome (session_endpoint env (count_events is_get t)) with
  | inr v => (Normal v, t ++ [EvGet url])
  | inl e =>
      if (retries <? newSessionRetries)%nat
      then loop (retries + 1)%nat (t ++ [EvGet url; EvWait 1])
      else on_exhaustion e (t ++ [EvGet url; EvWait 1])
  end.

Lemma loop_result (Q : JsVal → Prop) :
  (∀ e t r t', thrown_by_attempt e → on_exhaustion e t = (Normal r, t') → Q r) →
  (∀ i v, try_outcome (session_endpoint env i) = inr v → Q v) →
  ∀ retries t r t', loop retries t = (Normal r, t') → Q r.
Proof.
  intros Hgive Hpass retries.
  remember (newSessionRetries - retries)%nat as k eqn:Hk.
  revert retries Hk.
  induction k as [|k IH]; intros retries Hk t r t'; rewrite loop_step;
    destruct (try_outcome _) as [e|v] eqn:Hv;
    try (intros [= <- _]; eapply Hpass, Hv).
  - retries_used_up. apply Hgive. eapply try_outcome_thrown, Hv.
  - retries_left. apply IH. lia.
Qed.

Lemma loop_skip k : ∀ retries t,
  (retries + k ≤ newSessionRetries)%nat →
  (∀ i, (i < k)%nat →
     attempt_throws (session_endpoint env (count_events is_get t + i))
     = true) →
  loop retries t = loop (retries + k)%nat (t ++ retry_trace url k).
Proof.
  induction k as [|k IH]; intros retries t Hle Hfail.
  - simpl. rewrite Nat.add_0_r, List.app_nil_r. reflexivity.
  - rewrite loop_step.
    pose proof (Hfail 0%nat ltac:(lia)) as H0.
    rewrite Nat.add_0_r in H0. unfold attempt_throws in H0.
    destruct (try_outcome _) as [e|v]; [|discriminate].
    retries_left. rewrite IH.
    + replace (retries + 1 + k)%nat with (retries + S k)%nat by lia.
      rewrite <- List.app_assoc. reflexivity.
    + lia.
    + intros i Hi. rewrite count_events_app.
      change (count_events is_get [EvGet url; EvWait 1]) with 1%nat.
      replace (count_events is_get t + 1 + i)%nat
        with (count_events is_get t + S i)%nat by lia.
      apply Hfail. lia.
Qed.

Lemma loop_exhausted t e :
  (∀ i, (i < newSessionRetries)%nat →
     attempt_throws (session_endpoint env (count_events is_get t + i))
     = true) →
  try_outcome
    (session_endpoint env (count_events is_get t + newSessionRetries))
  = inl e →
  loop 0%nat t = on_exhaustion e (t ++ retry_trace url (S newSessionRetries)).
Proof.
  intros Hfail Hlast.
  rewrite (loop_skip newSessionRetries) by (eauto; lia).
  rewrite loop_step, count_events_app, count_get_retry_trace, Hlast.
  change ((0 + newSessionRetries <? newSessionRetries)%nat) with false.
  cbv iota. rewrite <- List.app_assoc, <- retry_trace_snoc. reflexivity.
Qed.
End RetryLoop.

Lemma getCompletion_stage_two_stage env cr t r t' :
  TwoStage.getCompletionWithOpenAi env cr t = (Normal r, t') →
  stage_result
    (λ u, u = completion_endpoint env (TwoStage.CompletionRequest_js cr)) r.
Proof.
  destruct (truthy (TwoStage.session cr)) eqn:Hs.
  - rewrite getCompletion_run_two_stage by exact Hs. cbv zeta.
    destruct (try_outcome _) as [e|v] eqn:Hv.
    + apply give_up_stage. eapply try_outcome_thrown, Hv.
    + intros [= <- _].
      eapply passed_through_stage;
        [reflexivity|apply try_outcome_passed_through, Hv].
  - rewrite getCompletion_guard_two_stage by exact Hs.
    apply (handleErrorResponse_stage _ ErrNull). auto.
Qed.

Lemma getCompletion_stage_session_only env session t r t' :
  SessionOnly.getCompletionWithOpenAi env session t = (Normal r, t') →
  stage_result (λ u, u = completion_endpoint env session) r.
Proof.
  destruct (truthy session) eqn:Hs.
  - rewrite getCompletion_run_session_only by exact Hs. cbv zeta.
    destruct (try_outcome _) as [e|v] eqn:Hv.
    + apply handleErrorResponse_stage. left. eapply try_outcome_thrown, Hv.
    + intros [= <- _].
      eapply passed_through_stage;
        [reflexivity|apply try_outcome_passed_through, Hv].
  - rewrite getCompletion_guard_session_only by exact Hs.
    apply (handleErrorResponse_stage _ ErrNull). auto.
Qed.

Lemma getNewSession_stage env retries t r t' :
  TwoStage.getNewSession env retries t = (Normal r, t') →
  stage_result (λ u, ∃ i, u = session_endpoint env i) r.
Proof.
  apply (loop_result env (TwoStage.sessionUrl env)
           (TwoStage.getNewSession env) give_up_session
           (getNewSession_step env)).
  - intros e t0 r0 t0'. apply give_up_stage.
  - intros i v Hv. eapply passed_through_stage;
      [exists i; reflexivity|apply try_outcome_passed_through, Hv].
Qed.

Lemma so_getNewSession_stage env retries t r t' :
  SessionOnly.getNewSession env retries t = (Normal r, t') →
  stage_result (λ u, ∃ i, u = session_endpoint env i) r.
Proof.
  apply (loop_result env (SessionOnly.sessionUrl env)
           (SessionOnly.getNewSession env) handleErrorResponse
           (so_getNewSession_step env)).
  - intros e t0 r0 t0' He. apply handleErrorResponse_stage. auto.
  - intros i v Hv. eapply passed_through_stage;
      [exists i; reflexivity|apply try_outcome_passed_through, Hv].
Qed.

(** X3: in both gateways every result of [getNewSession] and of
    [getCompletionWithOpenAi] carries a numeric [statusCode].  When that
    code is a 2xx one, the result is the body of an answer of that stage's
    upstream, which had that very status, with only [statusCode] put in;
    with any other code it is a normalised error: [status] is false and
    there is no [data].  So an error that the gateway builds never shows
    a 2xx code. *)
Theorem results_by_status_code env :
  (∀ retries t r t',
     TwoStage.getNewSession env retries t = (Normal r, t') →
     stage_result (λ u, ∃ i, u = session_endpoint env i) r)
  ∧ (∀ retries t r t',
     SessionOnly.getNewSession env retries t = (Normal r, t') →
     stage_result (λ u, ∃ i, u = session_endpoint env i) r)
  ∧ (∀ completionRequest t r t',
     TwoStage.getCompletionWithOpenAi env completionRequest t
     = (Normal r, t') →
     stage_result
       (λ u, u = completion_endpoint env
                   (TwoStage.CompletionRequest_js completionRequest)) r)
  ∧ (∀ session t r t',
     SessionOnly.getCompletionWithOpenAi env session t = (Normal r, t') →
     stage_result (λ u, u = completion_endpoint env session) r).
Proof.
  split; [|split; [|split]].
  - intros retries t r t'. apply getNewSession_stage.
  - intros retries t r t'. apply so_getNewSession_stage.
  - intros cr t r t'. apply getCompletion_stage_two_stage.
  - intros session t r t'. apply getCompletion_stage_session_only.
Qed.

(** An HTML page from a proxy in front of the session service, for ever:
    the result is the generic error and its code is 500. *)
Lemma results_by_status_code_witness :
  TwoStage.getNewSession env_html 0 [] =
    (Normal generic_error, retry_trace "undefined/v1/new-openai-session" 101)
  ∧ stage_result (λ u, ∃ i, u = session_endpoint env_html i) generic_error.
Proof.
  assert (H : TwoStage.getNewSession env_html 0 [] =
    (Normal generic_error, retry_trace "undefined/v1/new-openai-session" 101))
    by (vm_compute; reflexivity).
  split; [exact H|].
  exact (proj1 (results_by_status_code env_html) 0%nat [] _ _ H).
Defined.

(** ** One completion call, event by event *)

Lemma count_completion_events url body u :
  count_events is_post (completion_events url body u) = 1%nat
  ∧ count_events is_get (completion_events url body u) = 0%nat
  ∧ count_events is_wait (completion_events url body u) = 0%nat.
Proof.
  unfold completion_events.
  change (EvPost url body :: ?l) with ([EvPost url body] ++ l).
  rewrite !count_events_app.
  destruct (try_outcome u) as [e|v];
    rewrite ?count_error_log by reflexivity; repeat split.
Qed.

Lemma getCompletion_trace_two_stage env cr t :
  snd (TwoStage.getCompletionWithOpenAi env cr t) =
  t ++ (if truthy (TwoStage.session cr)
        then completion_events (TwoStage.completionUrl env)
               (TwoStage.CompletionRequest_js cr)
               (completion_endpoint env (TwoStage.CompletionRequest_js cr))
        else []).
Proof.
  destruct (truthy (TwoStage.session cr)) eqn:Hs.
  - rewrite getCompletion_run_two_stage by exact Hs. cbv zeta.
    unfold completion_events.
    destruct (try_outcome _) as [e|v]; simpl.
    + rewrite give_up_completion_trace, <- List.app_assoc. reflexivity.
    + reflexivity.
  - rewrite getCompletion_guard_two_stage by exact Hs.
    simpl. rewrite List.app_nil_r. reflexivity.
Qed.

Lemma getCompletion_trace_session_only env session t :
  snd (SessionOnly.getCompletionWithOpenAi env session t) =
  t ++ (if truthy session
        then completion_events (SessionOnly.completionUrl env) session
               (completion_endpoint env session)
        else []).
Proof.
  destruct (truthy session) eqn:Hs.
  - rewrite getCompletion_run_session_only by exact Hs. cbv zeta.
    unfold completion_events.
    destruct (try_outcome _) as [e|v]; simpl.
    + rewrite handleErrorResponse_trace, <- List.app_assoc. reflexivity.
    + reflexivity.
  - rewrite getCompletion_guard_session_only by exact Hs.
    simpl. rewrite List.app_nil_r. reflexivity.
Qed.

(** X4: the completion stage is a single attempt.  With a truthy session
    [getCompletionWithOpenAi] sends exactly one POST, to [completionUrl],
    whose body is [{session, conversation}] in the two-stage gateway and
    the session alone in the session-only gateway; it never fetches, never
    waits and never posts again, whatever the upstream answers; a failure
    adds at most the one log line of its normalisation. *)
Theorem completion_single_attempt env t :
  (∀ completionRequest,
     truthy (TwoStage.session completionRequest) = true →
     snd (TwoStage.getCompletionWithOpenAi env completionRequest t) =
     t ++ completion_events (TwoStage.completionUrl env)
            (obj [("session", TwoStage.session completionRequest);
                  ("conversation", TwoStage.conversation completionRequest)])
            (completion_endpoint env
               (TwoStage.CompletionRequest_js completionRequest)))
  ∧ (∀ session,
     truthy session = true →
     snd (SessionOnly.getCompletionWithOpenAi env session t) =
     t ++ completion_events (SessionOnly.completionUrl env) session
            (completion_endpoint env session))
  ∧ (∀ url body u,
     count_events is_post (completion_events url body u) = 1%nat
     ∧ count_events is_get (completion_events url body u) = 0%nat
     ∧ count_events is_wait (completion_events url body u) = 0%nat
     ∧ (length (completion_events url body u) ≤ 2)%nat).
Proof.
  split; [|split].
  - intros cr Hs. rewrite getCompletion_trace_two_stage, Hs. reflexivity.
  - intros session Hs. rewrite getCompletion_trace_session_only, Hs.
    reflexivity.
  - intros url body u.
    destruct (count_completion_events url body u) as (Hp & Hg & Hw).
    repeat split; try assumption.
    unfold completion_events. simpl.
    destruct (try_outcome u) as [e|v]; simpl; [|lia].
    pose proof (error_log_length e). lia.
Qed.

(** A completion endpoint that answers 429: one POST, one log line. *)
Lemma completion_single_attempt_witness :
  let cr := TwoStage.mkCompletionRequest (obj [("token", JStr "t0")]) (obj []) in
  truthy (TwoStage.session cr) = true
  ∧ snd (TwoStage.getCompletionWithOpenAi env_completion_429 cr []) =
    [EvPost "undefined/v1/generate-conversation"
       (TwoStage.CompletionRequest_js cr);
     EvLog 429 (obj [("message", JStr "slow down")])]
  ∧ snd (SessionOnly.getCompletionWithOpenAi env_completion_429
           (TwoStage.session cr) []) =
    [EvPost "undefined/v1/chat-completion" (TwoStage.session cr);
     EvLog 429 (obj [("message", JStr "slow down")])].
Proof.
  intros cr. split; [reflexivity|]. split.
  - exact (proj1 (completion_single_attempt env_completion_429 []) cr eq_refl).
  - exact (proj1 (proj2 (completion_single_attempt env_completion_429 []))
             (TwoStage.session cr) eq_refl).
Defined.

(** ** The handlers, whatever happens *)

Lemma handleConversation_cases env req res t :
  TwoStage.handleConversation env req res t =
  match TwoStage.getNewSession env 0 t with
  | (Normal sessionResponse, t1) =>
      if negb (truthy (field sessionResponse "status"))
      then (Normal (relay sessionResponse res), t1)
      else
        match TwoStage.getCompletionWithOpenAi env
                (TwoStage.mkCompletionRequest (field sessionResponse "data")
                   (req_body req)) t1 with
        | (Normal completionResponse, t2) =>
            (Normal (relay completionResponse res), t2)
        | (Throw e, t2) => (Throw e, t2)
        end
  | (Throw e, t1) => (Throw e, t1)
  end.
Proof.
  destruct (TwoStage.getNewSession env 0 t) as [[sr|e] t1] eqn:Hrun.
  - apply handleConversation_run, Hrun.
  - unfold TwoStage.handleConversation, bind at 1. rewrite Hrun. reflexivity.
Qed.

Lemma handleChatCompletion_cases env req res t :
  SessionOnly.handleChatCompletion env req res t =
  match SessionOnly.getNewSession env 0 t with
  | (Normal sessionResponse, t1) =>
      if negb (truthy (field sessionResponse "status"))
      then (Normal (relay sessionResponse res), t1)
      else
        match SessionOnly.getCompletionWithOpenAi env
                (field sessionResponse "data") t1 with
        | (Normal completionResponse, t2) =>
            (Normal (relay completionResponse res), t2)
        | (Throw e, t2) => (Throw e, t2)
        end
  | (Throw e, t1) => (Throw e, t1)
  end.
Proof.
  destruct (SessionOnly.getNewSession env 0 t) as [[sr|e] t1] eqn:Hrun.
  - apply handleChatCompletion_run, Hrun.
  - unfold SessionOnly.handleChatCompletion, bind at 1. rewrite Hrun.
    reflexivity.
Qed.

Lemma stage_result_status P r :
  stage_result P r →
  ∃ n, field r "statusCode" = JNum n
       ∧ (validateStatus n = false →
          field r "status" = JBool false ∧ field r "data" = JUndefined).
Proof.
  intros (n & Hn & [[Hs _]|[Hs (_ & Hstatus & Hdata & _)]]); exists n;
    (split; [exact Hn|]).
  - intros H. rewrite Hs in H. discriminate.
  - auto.
Qed.

Lemma relay_spec r res n :
  field r "statusCode" = JNum n →
  res_statusCode (relay r res) = JNum n
  ∧ res_written (relay r res) = res_written res ++ [Json r]
  ∧ res_ended (relay r res) = true.
Proof. intros Hn. unfold relay. rewrite Hn. repeat split. Qed.

(** X5: whenever a handler answers, the answer is one JSON body, the
    response is ended, and its HTTP status is the number in the
    [statusCode] field of that body; when that status is not a 2xx one,
    the body has [status] false and no [data].  This holds for
    [handleConversation] and for [handleChatCompletion]. *)
Theorem handler_answer env req res t :
  (∀ res' t',
     TwoStage.handleConversation env req res t = (Normal res', t') →
     ∃ r n,
       res' = relay r res
       ∧ field r "statusCode" = JNum n
       ∧ res_statusCode res' = JNum n
       ∧ res_written res' = res_written res ++ [Json r]
       ∧ res_ended res' = true
       ∧ (validateStatus n = false →
          field r "status" = JBool false ∧ field r "data" = JUndefined))
  ∧ (∀ res' t',
     SessionOnly.handleChatCompletion env req res t = (Normal res', t') →
     ∃ r n,
       res' = relay r res
       ∧ field r "statusCode" = JNum n
       ∧ res_statusCode res' = JNum n
       ∧ res_written res' = res_written res ++ [Json r]
       ∧ res_ended res' = true
       ∧ (validateStatus n = false →
          field r "status" = JBool false ∧ field r "data" = JUndefined)).
Proof.
  assert (Hrelay : ∀ P r res' , stage_result P r → res' = relay r res →
    ∃ r n,
       res' = relay r res
       ∧ field r "statusCode" = JNum n
       ∧ res_statusCode res' = JNum n
       ∧ res_written res' = res_written res ++ [Json r]
       ∧ res_ended res' = true
       ∧ (validateStatus n = false →
          field r "status" = JBool false ∧ field r "data" = JUndefined)).
  { intros P r res' Hstage ->.
    destruct (stage_result_status _ _ Hstage) as (n & Hn & Herr).
    destruct (relay_spec r res n Hn) as (H1 & H2 & H3).
    exists r, n. auto 10. }
  split; intros res' t'.
  - rewrite handleConversation_cases.
    destruct (TwoStage.getNewSession env 0 t) as [[sr|e] t1] eqn:Hrun;
      [|discriminate].
    destruct (negb (truthy (field sr "status"))).
    + intros [= <- _].
      eapply Hrelay; [eapply getNewSession_stage, Hrun|reflexivity].
    + destruct (TwoStage.getCompletionWithOpenAi _ _ _) as [[cr|e] t2] eqn:Hc;
        [|discriminate].
      intros [= <- _].
      eapply Hrelay; [eapply getCompletion_stage_two_stage, Hc|reflexivity].
  - rewrite handleChatCompletion_cases.
    destruct (SessionOnly.getNewSession env 0 t) as [[sr|e] t1] eqn:Hrun;
      [|discriminate].
    destruct (negb (truthy (field sr "status"))).
    + intros [= <- _].
      eapply Hrelay; [eapply so_getNewSession_stage, Hrun|reflexivity].
    + destruct (SessionOnly.getCompletionWithOpenAi _ _ _)
        as [[cr|e] t2] eqn:Hc; [|discriminate].
      intros [= <- _].
      eapply Hrelay;
        [eapply getCompletion_stage_session_only, Hc|reflexivity].
Qed.

(** A completion endpoint that answers 429 with a message: the caller gets
    429 and a body with [status] false. *)
Lemma handler_answer_witness :
  let r := error_result 429 (JStr "slow down") in
  TwoStage.handleConversation env_completion_429 sample_request fresh_res [] =
    (Normal (relay r fresh_res),
     [EvGet "undefined/v1/new-openai-session";
      EvPost "undefined/v1/generate-conversation"
        (obj [("session", obj [("token", JStr "t0")]);
              ("conversation", req_body sample_request)]);
      EvLog 429 (obj [("message", JStr "slow down")])])
  ∧ ∃ r' n,
      relay r fresh_res = relay r' fresh_res
      ∧ field r' "statusCode" = JNum n
      ∧ res_statusCode (relay r fresh_res) = JNum n
      ∧ res_written (relay r fresh_res) = res_written fresh_res ++ [Json r']
      ∧ res_ended (relay r fresh_res) = true
      ∧ (validateStatus n = false →
         field r' "status" = JBool false ∧ field r' "data" = JUndefined).
Proof.
  intros r.
  assert (H : TwoStage.handleConversation env_completion_429 sample_request
                fresh_res [] =
    (Normal (relay r fresh_res),
     [EvGet "undefined/v1/new-openai-session";
      EvPost "undefined/v1/generate-conversation"
        (obj [("session", obj [("token", JStr "t0")]);
              ("conversation", req_body sample_request)]);
      EvLog 429 (obj [("message", JStr "slow down")])]))
    by (vm_compute; reflexivity).
  split; [exact H|].
  exact (proj1 (handler_answer env_completion_429 sample_request fresh_res [])
           _ _ H).
Defined.

(** ** Session first, completion after *)

Lemma so_getNewSession_trace env k : ∀ retries t,
  (newSessionRetries - retries = k)%nat →
  snd (SessionOnly.getNewSession env retries t)
  = snd (TwoStage.getNewSession env retries t).
Proof.
  induction k as [|k IH]; intros retries t Hk;
    rewrite getNewSession_step, so_getNewSession_step;
    change (SessionOnly.sessionUrl env) with (TwoStage.sessionUrl env);
    destruct (try_outcome _) as [e|v]; try reflexivity.
  - retries_used_up.
    rewrite handleErrorResponse_trace, give_up_session_trace. reflexivity.
  - retries_left. apply IH. lia.
Qed.

Lemma completion_part_counts url body u (b : bool) :
  let part := if b then completion_events url body u else [] in
  count_events is_get part = 0%nat
  ∧ count_events is_wait part = 0%nat
  ∧ (count_events is_post part ≤ 1)%nat.
Proof.
  destruct b; cbv zeta; [|repeat split; cbv; lia].
  destruct (count_completion_events url body u) as (Hp & Hg & Hw).
  rewrite Hp, Hg, Hw. repeat split; lia.
Qed.

Lemma handler_trace_split env req res t :
  (∃ b,
     snd (TwoStage.handleConversation env req res t)
     = snd (TwoStage.getNewSession env 0 t) ++ b
     ∧ count_events is_get b = 0%nat
     ∧ count_events is_wait b = 0%nat
     ∧ (count_events is_post b ≤ 1)%nat)
  ∧ (∃ b,
     snd (SessionOnly.handleChatCompletion env req res t)
     = snd (SessionOnly.getNewSession env 0 t) ++ b
     ∧ count_events is_get b = 0%nat
     ∧ count_events is_wait b = 0%nat
     ∧ (count_events is_post b ≤ 1)%nat).
Proof.
  assert (Hnil : ∀ t1 : Trace, ∃ b : Trace,
            t1 = t1 ++ b
            ∧ count_events is_get b = 0%nat
            ∧ count_events is_wait b = 0%nat
            ∧ (count_events is_post b ≤ 1)%nat).
  { intros t1. exists []. rewrite List.app_nil_r.
    repeat split; cbv; lia. }
  split.
  - rewrite handleConversation_cases.
    destruct (TwoStage.getNewSession env 0 t) as [[sr|e] t1]; simpl;
      [|apply Hnil].
    destruct (negb (truthy (field sr "status"))); [apply Hnil|].
    pose proof (getCompletion_trace_two_stage env
      (TwoStage.mkCompletionRequest (field sr "data") (req_body req)) t1)
      as Hc.
    eexists. split; [|apply completion_part_counts].
    destruct (TwoStage.getCompletionWithOpenAi _ _ _) as [[cr|e] t2];
      simpl in Hc; subst t2; reflexivity.
  - rewrite handleChatCompletion_cases.
    destruct (SessionOnly.getNewSession env 0 t) as [[sr|e] t1]; simpl;
      [|apply Hnil].
    destruct (negb (truthy (field sr "status"))); [apply Hnil|].
    pose proof (getCompletion_trace_session_only env (field sr "data") t1)
      as Hc.
    eexists. split; [|apply completion_part_counts].
    destruct (SessionOnly.getCompletionWithOpenAi _ _ _) as [[cr|e] t2];
      simpl in Hc; subst t2; reflexivity.
Qed.

(** X6: a handler calls the session endpoint first and the completion
    endpoint after.  Its events are those of [getNewSession], between 1
    and 101 fetches with no POST among them, followed by those of the
    completion stage, which are at most one POST with no fetch and no wait:
    the POST never comes before the last fetch, and nothing is fetched
    again after it.  This holds whether the handler answers or throws. *)
Theorem handler_calls_in_sequence env req res t :
  (∃ a b,
     snd (TwoStage.getNewSession env 0 t) = t ++ a
     ∧ snd (TwoStage.handleConversation env req res t) = t ++ a ++ b
     ∧ (1 ≤ count_events is_get a ≤ 1 + newSessionRetries)%nat
     ∧ count_events is_post a = 0%nat
     ∧ count_events is_get b = 0%nat
     ∧ count_events is_wait b = 0%nat
     ∧ (count_events is_post b ≤ 1)%nat)
  ∧ (∃ a b,
     snd (SessionOnly.getNewSession env 0 t) = t ++ a
     ∧ snd (SessionOnly.handleChatCompletion env req res t) = t ++ a ++ b
     ∧ (1 ≤ count_events is_get a ≤ 1 + newSessionRetries)%nat
     ∧ count_events is_post a = 0%nat
     ∧ count_events is_get b = 0%nat
     ∧ count_events is_wait b = 0%nat
     ∧ (count_events is_post b ≤ 1)%nat).
Proof.
  destruct (getNewSession_bounded env _ 0 t eq_refl)
    as (a & Ha & Hget & _ & Hpost).
  pose proof (so_getNewSession_trace env _ 0 t eq_refl) as Hsame.
  rewrite Ha in Hsame.
  destruct (handler_trace_split env req res t)
    as [(b & Hb & Hcounts) (b' & Hb' & Hcounts')].
  split.
  - exists a, b. rewrite Hb, Ha, <- List.app_assoc. auto.
  - exists a, b'. rewrite Hb', Hsame, <- List.app_assoc. auto.
Qed.

(** ** What every answer carries, and who reaches the upstream *)

Lemma cors_res_has_cors_headers : has_cors_headers cors_res.
Proof. repeat split. Qed.

Lemma relay_keeps_cors r res :
  has_cors_headers res → has_cors_headers (relay r res).
Proof.
  intros (H1 & H2 & H3). unfold has_cors_headers, relay, res_json. simpl.
  rewrite !lookup_insert_ne by discriminate. auto.
Qed.

Lemma handlers_relay_something env req res t :
  (∀ res' t',
     TwoStage.handleConversation env req res t = (Normal res', t') →
     ∃ r, res' = relay r res)
  ∧ (∀ res' t',
     SessionOnly.handleChatCompletion env req res t = (Normal res', t') →
     ∃ r, res' = relay r res).
Proof.
  split; intros res' t'.
  - rewrite handleConversation_cases.
    destruct (TwoStage.getNewSession env 0 t) as [[sr|e] t1];
      [|discriminate].
    destruct (negb (truthy (field sr "status"))).
    + intros [= <- _]. eauto.
    + destruct (TwoStage.getCompletionWithOpenAi _ _ _) as [[cr|e] t2];
        [|discriminate].
      intros [= <- _]. eauto.
  - rewrite handleChatCompletion_cases.
    destruct (SessionOnly.getNewSession env 0 t) as [[sr|e] t1];
      [|discriminate].
    destruct (negb (truthy (field sr "status"))).
    + intros [= <- _]. eauto.
    + destruct (SessionOnly.getCompletionWithOpenAi _ _ _) as [[cr|e] t2];
        [|discriminate].
      intros [= <- _]. eauto.
Qed.

(** X7: every answer to a request whose body the JSON body parser
    accepted carries the three headers that [enableCORS] sets, whichever
    route served the request and whatever the upstream did: the preflight
    answer, the welcome text, the 404, and every relayed result, failures
    included.  The answer to a request whose body the parser refused
    carries none of them, since the parser runs before [enableCORS]. *)
Theorem every_answer_has_cors_headers env inc t :
  (∀ body,
     in_body inc = Parsed body →
     (∀ res' t',
        TwoStage.app env inc t = (Normal res', t') → has_cors_headers res')
     ∧ (∀ res' t',
        SessionOnly.app env inc t = (Normal res', t') →
        has_cors_headers res'))
  ∧ (∀ status page,
     in_body inc = Refused status page →
     ∀ res' t',
       TwoStage.app env inc t = (Normal res', t')
       ∨ SessionOnly.app env inc t = (Normal res', t') →
       res_headers res' !! "Access-Control-Allow-Origin" = None
       ∧ res_headers res' !! "Access-Control-Allow-Headers" = None
       ∧ res_headers res' !! "Access-Control-Allow-Methods" = None).
Proof.
  pose proof cors_res_has_cors_headers as Hcors.
  rewrite app_run_two_stage, app_run_session_only. split.
  - intros body ->. cbv zeta.
    destruct (String.eqb (in_method inc) "OPTIONS").
    { split; intros res' t' [= <- _]; exact Hcors. }
    destruct (welcome_route (request_of inc body)).
    { split; intros res' t' [= <- _]; exact Hcors. }
    destruct (chat_route (request_of inc body)).
    + destruct (handlers_relay_something env (request_of inc body) cors_res t)
        as [H1 H2].
      split; intros res' t' Hrun.
      * apply H1 in Hrun as [r ->]. apply relay_keeps_cors, Hcors.
      * apply H2 in Hrun as [r ->]. apply relay_keeps_cors, Hcors.
    + split; intros res' t' [= <- _];
        unfold has_cors_headers, res_send, res_json; simpl;
        rewrite !lookup_insert_ne by discriminate; exact Hcors.
  - intros status page -> res' t' [[= <- _]|[= <- _]]; repeat split.
Qed.

(** A chat request against a session endpoint that never answers: the 500
    carries the headers; the same request with a body that is not JSON:
    the 400 does not. *)
Lemma every_answer_has_cors_headers_witness :
  let broken := mkIncoming "POST" "/v1/chat/completions"
                  (Refused 400 "Bad Request") in
  TwoStage.app env_unreachable sample_incoming [] =
    (Normal (relay generic_error cors_res),
     retry_trace "undefined/v1/new-openai-session" 101)
  ∧ has_cors_headers (relay generic_error cors_res)
  ∧ TwoStage.app env_unreachable broken [] =
    (Normal (error_handler_answer 400 "Bad Request" fresh_res), [])
  ∧ res_headers (error_handler_answer 400 "Bad Request" fresh_res)
      !! "Access-Control-Allow-Origin" = None.
Proof.
  intros broken.
  assert (H : TwoStage.app env_unreachable sample_incoming [] =
    (Normal (relay generic_error cors_res),
     retry_trace "undefined/v1/new-openai-session" 101))
    by (vm_compute; reflexivity).
  assert (H' : TwoStage.app env_unreachable broken [] =
    (Normal (error_handler_answer 400 "Bad Request" fresh_res), []))
    by reflexivity.
  split; [exact H|]. split.
  { exact (proj1 (proj1 (every_answer_has_cors_headers env_unreachable
                           sample_incoming []) _ eq_refl) _ _ H). }
  split; [exact H'|].
  exact (proj1 (proj2 (every_answer_has_cors_headers env_unreachable broken [])
                  _ _ eq_refl _ _ (or_introl H'))).
Defined.

(** X8: the upstream services are contacted for the requests that reach
    the chat handler and for no other.  A request whose body the parser
    refuses, a preflight request, a request that the route [GET /] takes,
    and a request that no route takes leave the outside world untouched;
    a request with an accepted body that is not OPTIONS, that [GET /] does
    not take and that [POST /v1/chat/completions] takes is handled by the
    chat handler and fetches a session at least once. *)
Theorem upstream_contacted_only_by_handler env inc t :
  (reaches_handler inc = false →
     snd (TwoStage.app env inc t) = t
     ∧ snd (SessionOnly.app env inc t) = t)
  ∧ (reaches_handler inc = true →
     ∃ body,
       in_body inc = Parsed body
       ∧ TwoStage.app env inc t
         = TwoStage.handleConversation env (request_of inc body) cors_res t
       ∧ SessionOnly.app env inc t
         = SessionOnly.handleChatCompletion env (request_of inc body)
             cors_res t
       ∧ (count_events is_get t
          < count_events is_get (snd (TwoStage.app env inc t)))%nat
       ∧ (count_events is_get t
          < count_events is_get (snd (SessionOnly.app env inc t)))%nat).
Proof.
  unfold reaches_handler.
  rewrite app_run_two_stage, app_run_session_only.
  destruct (in_body inc) as [body|status page];
    [|split; [auto|discriminate]].
  cbv zeta.
  destruct (String.eqb (in_method inc) "OPTIONS"); simpl.
  { split; [auto|discriminate]. }
  destruct (welcome_route (request_of inc body)); simpl.
  { split; [auto|discriminate]. }
  destruct (chat_route (request_of inc body)); simpl.
  - split; [discriminate|]. intros _. exists body.
    split; [reflexivity|]. split; [reflexivity|]. split; [reflexivity|].
    destruct (handler_trace_split env (request_of inc body) cors_res t)
      as [(b & Hb & _) (b' & Hb' & _)].
    destruct (getNewSession_bounded env _ 0 t eq_refl)
      as (a & Ha & Hget & _).
    rewrite Hb, Hb', (so_getNewSession_trace env _ 0 t eq_refl), Ha.
    rewrite !count_events_app. lia.
  - split; [auto|discriminate].
Qed.

(** A preflight request to the chat route, a chat request whose body is
    not JSON, and a chat request. *)
Lemma upstream_contacted_only_by_handler_witness :
  let preflight :=
    mkIncoming "OPTIONS" "/v1/chat/completions" (Parsed JUndefined) in
  let broken := mkIncoming "POST" "/v1/chat/completions"
                  (Refused 400 "Bad Request") in
  reaches_handler preflight = false
  ∧ snd (TwoStage.app env_unreachable preflight []) = []
  ∧ reaches_handler broken = false
  ∧ snd (TwoStage.app env_unreachable broken []) = []
  ∧ reaches_handler sample_incoming = true
  ∧ ∃ body,
      in_body sample_incoming = Parsed body
      ∧ (count_events is_get []
         < count_events is_get
             (snd (TwoStage.app env_unreachable sample_incoming [])))%nat.
Proof.
  intros preflight broken. split; [reflexivity|]. split.
  { exact (proj1 (proj1 (upstream_contacted_only_by_handler
                           env_unreachable preflight []) eq_refl)). }
  split; [reflexivity|]. split.
  { exact (proj1 (proj1 (upstream_contacted_only_by_handler
                           env_unreachable broken []) eq_refl)). }
  split; [reflexivity|].
  destruct (proj2 (upstream_contacted_only_by_handler env_unreachable
                     sample_incoming []) eq_refl)
    as (body & Hbody & _ & _ & Hget & _).
  exists body. split; [exact Hbody|exact Hget].
Defined.

(** ** When the upstream answers with an HTTP error *)

Lemma so_getNewSession_exhausted env t e :
  (∀ i, (i < newSessionRetries)%nat →
     attempt_throws (session_endpoint env (count_events is_get t + i)) = true) →
  try_outcome
    (session_endpoint env (count_events is_get t + newSessionRetries)) = inl e →
  SessionOnly.getNewSession env 0 t =
  handleErrorResponse e
    (t ++ retry_trace (SessionOnly.sessionUrl env) (S newSessionRetries)).
Proof.
  apply (loop_exhausted env (SessionOnly.sessionUrl env)
           (SessionOnly.getNewSession env) handleErrorResponse
           (so_getNewSession_step env)).
Qed.

Lemma handleErrorResponse_http status body t :
  handleErrorResponse (AxiosError (Some (mkResponse status body))) t =
  (match get_prop body "message" with
   | inr message => Normal (error_result status message)
   | inl e => Throw e
   end, t ++ [EvLog status body]).
Proof.
  simpl. unfold bind, emit, lift. simpl.
  destruct (get_prop body "message"); reflexivity.
Qed.

Lemma give_up_http_throws dflt status body e t :
  get_prop body "message" = inl e →
  (errorResponse <- handleErrorResponse
                      (AxiosError (Some (mkResponse status body))) ;;
   or_default_error errorResponse dflt) t =
  (Throw e, t ++ [EvLog status body]).
Proof.
  intros He. unfold bind at 1. rewrite handleErrorResponse_http, He.
  reflexivity.
Qed.

Lemma relay_error_result_run env req res t status error t1 :
  TwoStage.getNewSession env 0 t = (Normal (error_result status error), t1) →
  TwoStage.handleConversation env req res t =
  (Normal (relay (error_result status error) res), t1).
Proof.
  intros Hrun. rewrite handleConversation_cases, Hrun. reflexivity.
Qed.

Lemma so_relay_error_result_run env req res t status error t1 :
  SessionOnly.getNewSession env 0 t = (Normal (error_result status error), t1) →
  SessionOnly.handleChatCompletion env req res t =
  (Normal (relay (error_result status error) res), t1).
Proof.
  intros Hrun. rewrite handleChatCompletion_cases, Hrun. reflexivity.
Qed.

(** X9: when the 100 retries are used up and the last attempt met an HTTP
    error response (a status outside 200..299), the caller gets that
    status code, with [status] false and the [message] of the upstream
    body as [error]; a falsy message becomes
    "Error while getting session..." in the two-stage gateway and stays as
    it is in the session-only one.  The response is logged once.  But when
    the body of that last answer is [null] (or [undefined]), reading its
    [message] throws: the handler throws too and sends no answer at all. *)
Theorem exhausted_http_error env req res t status body :
  (∀ i, (i < newSessionRetries)%nat →
     attempt_throws (session_endpoint env (count_events is_get t + i)) = true) →
  session_endpoint env (count_events is_get t + newSessionRetries)
  = Reply status body →
  validateStatus status = false →
  let t' := t ++ retry_trace (TwoStage.sessionUrl env) (S newSessionRetries)
              ++ [EvLog status body] in
  match get_prop body "message" with
  | inr message =>
      TwoStage.handleConversation env req res t =
        (Normal
           (relay (error_result status
                     (if truthy message then message
                      else JStr "Error while getting session...")) res), t')
      ∧ SessionOnly.handleChatCompletion env req res t =
        (Normal (relay (error_result status message) res), t')
  | inl e =>
      TwoStage.handleConversation env req res t = (Throw e, t')
      ∧ SessionOnly.handleChatCompletion env req res t = (Throw e, t')
  end.
Proof.
  intros Hfail Hlast Hs t'.
  assert (Hout : try_outcome
            (session_endpoint env (count_events is_get t + newSessionRetries))
          = inl (AxiosError (Some (mkResponse status body)))).
  { rewrite Hlast. simpl. rewrite Hs. reflexivity. }
  pose proof (getNewSession_exhausted env t _ Hfail Hout) as H1.
  pose proof (so_getNewSession_exhausted env t _ Hfail Hout) as H2.
  change (SessionOnly.sessionUrl env) with (TwoStage.sessionUrl env) in H2.
  rewrite handleErrorResponse_http, <- List.app_assoc in H2. fold t' in H2.
  destruct (get_prop body "message") as [e|message] eqn:Hm.
  - unfold give_up_session in H1.
    rewrite (give_up_http_throws _ _ _ _ _ Hm), <- List.app_assoc in H1.
    fold t' in H1. split.
    + rewrite handleConversation_cases, H1. reflexivity.
    + rewrite handleChatCompletion_cases, H2. reflexivity.
  - unfold give_up_session in H1.
    rewrite (give_up_http_error _ _ _ _ _ Hm), <- List.app_assoc in H1.
    fold t' in H1. split.
    + apply relay_error_result_run, H1.
    + apply so_relay_error_result_run, H2.
Qed.

(** A session endpoint that answers 502 with [{}], and one that answers
    502 with [null]. *)
Lemma exhausted_http_error_witness :
  let url := "undefined/v1/new-openai-session" in
  (∀ i, (i < newSessionRetries)%nat →
     attempt_throws (session_endpoint env_502_empty (count_events is_get [] + i))
     = true)
  ∧ validateStatus 502 = false
  ∧ TwoStage.handleConversation env_502_empty sample_request fresh_res [] =
    (Normal (relay (error_result 502 (JStr "Error while getting session..."))
               fresh_res),
     retry_trace url 101 ++ [EvLog 502 (obj [])])
  ∧ SessionOnly.handleChatCompletion env_502_empty sample_request fresh_res [] =
    (Normal (relay (error_result 502 JUndefined) fresh_res),
     retry_trace url 101 ++ [EvLog 502 (obj [])])
  ∧ TwoStage.handleConversation env_502_null sample_request fresh_res [] =
    (Throw TypeError, retry_trace url 101 ++ [EvLog 502 JNull]).
Proof.
  intros url.
  assert (H1 : ∀ i, (i < newSessionRetries)%nat →
     attempt_throws (session_endpoint env_502_empty (count_events is_get [] + i))
     = true) by (intros i _; reflexivity).
  assert (H2 : ∀ i, (i < newSessionRetries)%nat →
     attempt_throws (session_endpoint env_502_null (count_events is_get [] + i))
     = true) by (intros i _; reflexivity).
  split; [exact H1|]. split; [reflexivity|].
  pose proof (exhausted_http_error env_502_empty sample_request fresh_res []
                502 (obj []) H1 eq_refl eq_refl) as [Ha Hb].
  split; [exact Ha|]. split; [exact Hb|].
  exact (proj1 (exhausted_http_error env_502_null sample_request fresh_res []
                  502 JNull H2 eq_refl eq_refl)).
Defined.

(** X10: when the completion endpoint answers with an HTTP error response,
    the caller gets that status code, with [status] false and the
    [message] of the upstream body as [error], after one POST and one log
    line; a falsy message becomes "Error while getting completions..." in
    the two-stage gateway and stays as it is in the session-only one.  When
    the body of the answer is [null] (or [undefined]) the handler throws
    and sends no answer. *)
Theorem completion_http_error env req res t sessionResponse t1 status body :
  truthy (field sessionResponse "status") = true →
  truthy (field sessionResponse "data") = true →
  validateStatus status = false →
  (TwoStage.getNewSession env 0 t = (Normal sessionResponse, t1) →
   let composed :=
     obj [("session", field sessionResponse "data");
          ("conversation", req_body req)] in
   completion_endpoint env composed = Reply status body →
   let t2 := t1 ++ [EvPost (TwoStage.completionUrl env) composed;
                    EvLog status body] in
   TwoStage.handleConversation env req res t =
   match get_prop body "message" with
   | inr message =>
       (Normal
          (relay (error_result status
                    (if truthy message then message
                     else JStr "Error while getting completions...")) res),
        t2)
   | inl e => (Throw e, t2)
   end)
  ∧ (SessionOnly.getNewSession env 0 t = (Normal sessionResponse, t1) →
     completion_endpoint env (field sessionResponse "data")
     = Reply status body →
     let t2 := t1 ++ [EvPost (SessionOnly.completionUrl env)
                        (field sessionResponse "data");
                      EvLog status body] in
     SessionOnly.handleChatCompletion env req res t =
     match get_prop body "message" with
     | inr message => (Normal (relay (error_result status message) res), t2)
     | inl e => (Throw e, t2)
     end).
Proof.
  intros Hstatus Hdata Hs. split.
  - intros Hrun composed Hreply t2.
    rewrite (handleConversation_run _ _ _ _ _ _ Hrun), Hstatus.
    change (negb true) with false. cbv iota.
    rewrite getCompletion_run_two_stage by exact Hdata. cbv zeta.
    change (TwoStage.CompletionRequest_js _) with composed.
    rewrite Hreply. simpl try_outcome. rewrite Hs.
    unfold give_up_completion.
    destruct (get_prop body "message") as [e|message] eqn:Hm.
    + rewrite (give_up_http_throws _ _ _ _ _ Hm), <- List.app_assoc.
      reflexivity.
    + rewrite (give_up_http_error _ _ _ _ _ Hm), <- List.app_assoc.
      reflexivity.
  - intros Hrun Hreply t2.
    rewrite (handleChatCompletion_run _ _ _ _ _ _ Hrun), Hstatus.
    change (negb true) with false. cbv iota.
    rewrite getCompletion_run_session_only by exact Hdata. cbv zeta.
    rewrite Hreply. simpl try_outcome. rewrite Hs.
    rewrite handleErrorResponse_http, <- List.app_assoc.
    destruct (get_prop body "message"); reflexivity.
Qed.

(** A completion endpoint that answers 429 with a message. *)
Lemma completion_http_error_witness :
  let body := obj [("message", JStr "slow down")] in
  let t1 := [EvGet "undefined/v1/new-openai-session"] in
  truthy (field sample_session "status") = true
  ∧ truthy (field sample_session "data") = true
  ∧ validateStatus 429 = false
  ∧ TwoStage.getNewSession env_completion_429 0 [] = (Normal sample_session, t1)
  ∧ TwoStage.handleConversation env_completion_429 sample_request fresh_res []
    = (Normal (relay (error_result 429 (JStr "slow down")) fresh_res),
       t1 ++ [EvPost "undefined/v1/generate-conversation"
                (obj [("session", field sample_session "data");
                      ("conversation", req_body sample_request)]);
              EvLog 429 body]).
Proof.
  intros body t1.
  assert (H : TwoStage.getNewSession env_completion_429 0 [] =
                (Normal sample_session, t1)) by (vm_compute; reflexivity).
  split; [reflexivity|]. split; [reflexivity|]. split; [reflexivity|].
  split; [exact H|].
  exact (proj1 (completion_http_error env_completion_429 sample_request
                  fresh_res [] sample_session t1 429 body
                  eq_refl eq_refl eq_refl) H eq_refl).
Defined.

(** ** Answers that are not objects *)

Lemma try_outcome_non_object status body :
  validateStatus status = true → object_like body = false →
  try_outcome (Reply status body) = inl TypeError.
Proof.
  intros Hs Hb. simpl. rewrite Hs. destruct body; try discriminate; reflexivity.
Qed.

(** X11: a session answer with a 2xx status whose body is not an object
    (a text, a number, [null], an empty body) cannot take [statusCode];
    the attempt counts as failed and is retried.  When every answer is
    like that, both gateways answer 500 with the generic error result
    "Internal server error" after 101 fetches, and log nothing. *)
Theorem non_object_session_answers env req res t :
  (∀ i, (i ≤ newSessionRetries)%nat →
     ∃ status body,
       session_endpoint env (count_events is_get t + i) = Reply status body
       ∧ validateStatus status = true
       ∧ object_like body = false) →
  let t' := t ++ retry_trace (TwoStage.sessionUrl env) (S newSessionRetries) in
  TwoStage.getNewSession env 0 t = (Normal generic_error, t')
  ∧ TwoStage.handleConversation env req res t =
    (Normal (relay generic_error res), t')
  ∧ SessionOnly.handleChatCompletion env req res t =
    (Normal (relay generic_error res), t')
  ∧ res_statusCode (relay generic_error res) = JNum 500.
Proof.
  intros Hall t'.
  assert (Hout : ∀ i, (i ≤ newSessionRetries)%nat →
            try_outcome (session_endpoint env (count_events is_get t + i))
            = inl TypeError).
  { intros i Hi. destruct (Hall i Hi) as (status & body & -> & Hs & Hb).
    apply try_outcome_non_object; assumption. }
  assert (Hfail : ∀ i, (i < newSessionRetries)%nat →
            attempt_throws (session_endpoint env (count_events is_get t + i))
            = true).
  { intros i Hi. unfold attempt_throws. rewrite Hout by lia. reflexivity. }
  pose proof (getNewSession_exhausted env t _ Hfail
                (Hout newSessionRetries (le_n _))) as H1.
  pose proof (so_getNewSession_exhausted env t _ Hfail
                (Hout newSessionRetries (le_n _))) as H2.
  change (SessionOnly.sessionUrl env) with (TwoStage.sessionUrl env) in H2.
  fold t' in H1, H2.
  change (give_up_session TypeError t') with (Normal generic_error, t') in H1.
  change (handleErrorResponse TypeError t') with (Normal generic_error, t')
    in H2.
  split; [exact H1|]. split; [|split; [|reflexivity]].
  - rewrite handleConversation_cases, H1. reflexivity.
  - rewrite handleChatCompletion_cases, H2. reflexivity.
Qed.

(** A proxy that answers every session fetch with an HTML page. *)
Lemma non_object_session_answers_witness :
  (∀ i, (i ≤ newSessionRetries)%nat →
     ∃ status body,
       session_endpoint env_html (count_events is_get [] + i)
       = Reply status body
       ∧ validateStatus status = true
       ∧ object_like body = false)
  ∧ TwoStage.handleConversation env_html sample_request fresh_res [] =
    (Normal (relay generic_error fresh_res),
     retry_trace "undefined/v1/new-openai-session" 101).
Proof.
  assert (H : ∀ i, (i ≤ newSessionRetries)%nat →
     ∃ status body,
       session_endpoint env_html (count_events is_get [] + i)
       = Reply status body
       ∧ validateStatus status = true
       ∧ object_like body = false).
  { intros i _. exists 200, (JStr "<html></html>"). repeat split. }
  split; [exact H|].
  exact (proj1 (proj2 (non_object_session_answers env_html sample_request
                         fresh_res [] H))).
Defined.

(** X12: a completion call that fails without an HTTP error response, be
    it a network failure or a 2xx answer whose body is not an object,
    gives the generic error result: 500, "Internal server error".  The
    message "Error while getting completions..." is not used for it, and
    nothing is logged.  Both gateways behave alike. *)
Theorem completion_failure_without_response env t u :
  u = NetworkFailure
  ∨ (∃ status body, u = Reply status body ∧ validateStatus status = true
                    ∧ object_like body = false) →
  (∀ completionRequest,
     truthy (TwoStage.session completionRequest) = true →
     completion_endpoint env (TwoStage.CompletionRequest_js completionRequest)
     = u →
     TwoStage.getCompletionWithOpenAi env completionRequest t =
     (Normal generic_error,
      t ++ [EvPost (TwoStage.completionUrl env)
              (TwoStage.CompletionRequest_js completionRequest)]))
  ∧ (∀ session,
     truthy session = true →
     completion_endpoint env session = u →
     SessionOnly.getCompletionWithOpenAi env session t =
     (Normal generic_error,
      t ++ [EvPost (SessionOnly.completionUrl env) session])).
Proof.
  intros Hu.
  assert (He : ∃ e, try_outcome u = inl e
                    ∧ (e = AxiosError None ∨ e = TypeError)).
  { destruct Hu as [->|(status & body & -> & Hs & Hb)].
    - exists (AxiosError None). auto.
    - exists TypeError. split; [|auto].
      apply try_outcome_non_object; assumption. }
  destruct He as (e & Hout & He).
  split.
  - intros cr Hs Hreply.
    rewrite getCompletion_run_two_stage by exact Hs. cbv zeta.
    rewrite Hreply, Hout. destruct He as [-> | ->]; reflexivity.
  - intros session Hs Hreply.
    rewrite getCompletion_run_session_only by exact Hs. cbv zeta.
    rewrite Hreply, Hout. destruct He as [-> | ->]; reflexivity.
Qed.

(** A completion service that cannot be reached, and one that answers 200
    with a text. *)
Lemma completion_failure_without_response_witness :
  let cr := TwoStage.mkCompletionRequest (obj [("token", JStr "t0")]) (obj []) in
  truthy (TwoStage.session cr) = true
  ∧ TwoStage.getCompletionWithOpenAi env_completion_down cr [] =
    (Normal generic_error,
     [EvPost "undefined/v1/generate-conversation"
        (TwoStage.CompletionRequest_js cr)])
  ∧ SessionOnly.getCompletionWithOpenAi env_completion_text
      (TwoStage.session cr) [] =
    (Normal generic_error,
     [EvPost "undefined/v1/chat-completion" (TwoStage.session cr)]).
Proof.
  intros cr. split; [reflexivity|]. split.
  - exact (proj1 (completion_failure_without_response env_completion_down []
                    NetworkFailure (or_introl eq_refl)) cr eq_refl eq_refl).
  - refine (proj2 (completion_failure_without_response env_completion_text []
                     (Reply 200 (JStr "ok")) _) (TwoStage.session cr)
              eq_refl eq_refl).
    right. exists 200, (JStr "ok"). repeat split.
Defined.

(** ** A completion that succeeds *)

(** X13: when the session stage returned a truthy [status] and a truthy
    [data], and the completion endpoint answers any 2xx status with an
    object, the caller gets that very status and that body, unchanged but
    for [statusCode], which is set to the status of the answer whatever
    the body said; the only outbound call after the session stage is one
    POST carrying [{session: data, conversation: req.body}] (the session
    alone in the session-only gateway). *)
Theorem completion_success_is_relayed env req res t sessionResponse t1
    status fields :
  truthy (field sessionResponse "status") = true →
  truthy (field sessionResponse "data") = true →
  validateStatus status = true →
  let r := JObj (<["statusCode" := JNum status]> fields) in
  (TwoStage.getNewSession env 0 t = (Normal sessionResponse, t1) →
   let composed :=
     obj [("session", field sessionResponse "data");
          ("conversation", req_body req)] in
   completion_endpoint env composed = Reply status (JObj fields) →
   TwoStage.handleConversation env req res t =
   (Normal (relay r res),
    t1 ++ [EvPost (TwoStage.completionUrl env) composed]))
  ∧ (SessionOnly.getNewSession env 0 t = (Normal sessionResponse, t1) →
     completion_endpoint env (field sessionResponse "data")
     = Reply status (JObj fields) →
     SessionOnly.handleChatCompletion env req res t =
     (Normal (relay r res),
      t1 ++ [EvPost (SessionOnly.completionUrl env)
               (field sessionResponse "data")]))
  ∧ res_statusCode (relay r res) = JNum status
  ∧ field r "statusCode" = JNum status
  ∧ ∀ k, k ≠ "statusCode" → field r k = field (JObj fields) k.
Proof.
  intros Hstatus Hdata Hs r.
  assert (Hout : try_outcome (Reply status (JObj fields)) = inr r).
  { simpl. rewrite Hs. reflexivity. }
  assert (Hcode : field r "statusCode" = JNum status).
  { unfold r, field. simpl. rewrite lookup_insert_eq. reflexivity. }
  split; [|split; [|split; [|split]]].
  - intros Hrun composed Hreply.
    rewrite (handleConversation_run _ _ _ _ _ _ Hrun), Hstatus.
    change (negb true) with false. cbv iota.
    rewrite getCompletion_run_two_stage by exact Hdata. cbv zeta.
    change (TwoStage.CompletionRequest_js _) with composed.
    rewrite Hreply, Hout. reflexivity.
  - intros Hrun Hreply.
    rewrite (handleChatCompletion_run _ _ _ _ _ _ Hrun), Hstatus.
    change (negb true) with false. cbv iota.
    rewrite getCompletion_run_session_only by exact Hdata. cbv zeta.
    rewrite Hreply, Hout. reflexivity.
  - unfold relay. rewrite Hcode. reflexivity.
  - exact Hcode.
  - intros k Hk. unfold r, field. simpl.
    rewrite lookup_insert_ne by congruence. reflexivity.
Qed.

(** The echoing completion endpoint behind a session endpoint that answers
    at once. *)
Lemma completion_success_is_relayed_witness :
  let env := env_reachable_after 0 in
  let t1 := [EvGet "undefined/v1/new-openai-session"] in
  let composed :=
    obj [("session", field sample_session "data");
         ("conversation", req_body sample_request)] in
  truthy (field sample_session "status") = true
  ∧ truthy (field sample_session "data") = true
  ∧ validateStatus 200 = true
  ∧ TwoStage.getNewSession env 0 [] = (Normal sample_session, t1)
  ∧ TwoStage.handleConversation env sample_request fresh_res [] =
    (Normal
       (relay
          (JObj (<["statusCode" := JNum 200]>
                   (list_to_map
                      [("session", field sample_session "data");
                       ("conversation", req_body sample_request)])))
          fresh_res),
     t1 ++ [EvPost "undefined/v1/generate-conversation" composed]).
Proof.
  intros env t1 composed.
  assert (H : TwoStage.getNewSession env 0 [] = (Normal sample_session, t1))
    by (vm_compute; reflexivity).
  split; [reflexivity|]. split; [reflexivity|]. split; [reflexivity|].
  split; [exact H|].
  exact (proj1 (completion_success_is_relayed env sample_request fresh_res []
                  sample_session t1 200
                  (list_to_map
                     [("session", field sample_session "data");
                      ("conversation", req_body sample_request)])
                  eq_refl eq_refl eq_refl) H eq_refl).
Defined.
